(** * Koolie tooling: the CLI dispatcher and the documentation entry points

    A shallow embedding of [src/cli/koolie.ts] (sub-command discovery,
    registry and dispatch), of [src/cli/Utils.ts] (file-system probes and
    [findFiles]) and of [SubCommandBuildDocs] (entry-point resolution),
    followed by the properties of these programs.

    Conventions.
    - A JavaScript string is a [string]; its characters stand for code units
      below 256, so the line terminators a regular expression's [.] refuses
      are LF and CR.
    - [node:path], [glob-to-regexp], the module loader, [yargs] and the file
      system are libraries of the host, not of this repository: the generic
      development takes them as interfaces (the classes [NodePath] and
      [GlobLib], the record [FileSys], section variables for the loader and
      the parser) and the scenarios instantiate them with a POSIX model.
    - A regular expression built from a text without special characters
      matches that text; for any other source the engine of the host
      decides (the class [JsRegExp]).
    - [Exit] keeps the code given to [process.exit]; [exit_status] is what
      a POSIX host makes of it.
    - [async] code is sequential here: a computation of type [M A] takes the
      process state and either returns, throws, or ends the process with
      [process.exit]. *)

From Stdlib Require Import ZArith Ascii String List Bool Lia Sorting.Sorted Sorting.Permutation.
From stdpp Require Import base strings list gmap.
Import ListNotations.

Local Open Scope string_scope.
Local Open Scope list_scope.

(** String concatenation reduces on a constructor of its first argument. *)
#[local] Arguments String.append !_ _ : simpl nomatch.

(* ================================================================== *)
(** * Strings *)
(* ================================================================== *)

Module Str.

(** [s.startsWith(p)], returning what follows the prefix. *)
Fixpoint strip_prefix (p s : string) : option string :=
  match p with
  | EmptyString => Some s
  | String a p' =>
      match s with
      | EmptyString => None
      | String b s' => if Ascii.eqb a b then strip_prefix p' s' else None
      end
  end.

Definition starts_with (p s : string) : bool :=
  match strip_prefix p s with Some _ => true | None => false end.

(** Line terminators: the characters [.] does not match. *)
Definition is_line_terminator (c : ascii) : bool :=
  Ascii.eqb c "010"%char || Ascii.eqb c "013"%char.

Fixpoint no_line_terminator (s : string) : bool :=
  match s with
  | EmptyString => true
  | String c s' => negb (is_line_terminator c) && no_line_terminator s'
  end.

Fixpoint mem (c : ascii) (s : string) : bool :=
  match s with
  | EmptyString => false
  | String b s' => Ascii.eqb b c || mem c s'
  end.

(** [s.split(sep)] for a one-character separator. *)
Fixpoint split_from (sep : ascii) (cur : string) (s : string) : list string :=
  match s with
  | EmptyString => [cur]
  | String c s' =>
      if Ascii.eqb c sep then cur :: split_from sep EmptyString s'
      else split_from sep (cur +:+ String c EmptyString) s'
  end.

Definition split (sep : ascii) (s : string) : list string :=
  split_from sep EmptyString s.

(** [s.includes(sub)]. *)
Fixpoint includes (sub s : string) : bool :=
  starts_with sub s
  || match s with
     | EmptyString => false
     | String _ s' => includes sub s'
     end.

(** The characters a regular expression reads as syntax, and the texts
    that hold none of them. *)
Definition is_special (c : ascii) : bool :=
  existsb (Ascii.eqb c)
          ["\"; "^"; "$"; "."; "*"; "+"; "?"; "("; ")"; "["; "]"; "{"; "}"; "|"]%char.

Fixpoint plain (s : string) : bool :=
  match s with
  | EmptyString => true
  | String c s' => negb (is_special c) && plain s'
  end.

(** The number of occurrences of a character. *)
Fixpoint count (c : ascii) (s : string) : nat :=
  match s with
  | EmptyString => 0
  | String b s' => (if Ascii.eqb b c then 1 else 0) + count c s'
  end.

Definition of_list (l : list ascii) : string := string_of_list_ascii l.
Definition to_list (s : string) : list ascii := list_ascii_of_string s.

End Str.

(* ================================================================== *)
(** * [node:path] *)
(* ================================================================== *)

(** The functions of [node:path] the sources use.  [path_parse] is split
    into the two components that are read ([dir] and [base]). *)
Class NodePath := {
  sep : ascii;
  path_join : list string -> string;
  dirname : string -> string;
  basename : string -> string;
  parse_dir : string -> string;
  parse_base : string -> string
}.

(** The POSIX implementation ([path.posix]). *)
Module Posix.

Definition slash : ascii := "/"%char.
Definition is_slash (c : ascii) : bool := Ascii.eqb c slash.

Fixpoint drop_while (f : ascii -> bool) (l : list ascii) : list ascii :=
  match l with
  | [] => []
  | c :: l' => if f c then drop_while f l' else l
  end.

Fixpoint take_while (f : ascii -> bool) (l : list ascii) : list ascii :=
  match l with
  | [] => []
  | c :: l' => if f c then c :: take_while f l' else []
  end.

Definition is_absolute (s : string) : bool :=
  match s with String c _ => is_slash c | EmptyString => false end.

(** Both scan from the end: trailing separators are skipped, the base is
    what lies between them and the separator before. *)
Definition basename (p : string) : string :=
  let r := drop_while is_slash (rev (Str.to_list p)) in
  Str.of_list (rev (take_while (fun c => negb (is_slash c)) r)).

(** The reversed path up to and including the separator that ends the
    directory part. *)
Definition dir_part (p : string) : list ascii :=
  drop_while (fun c => negb (is_slash c)) (drop_while is_slash (rev (Str.to_list p))).

Definition dirname (p : string) : string :=
  match p with
  | EmptyString => "."
  | _ =>
      match dir_part p with
      | [] | [_] => if is_absolute p then "/" else "."
      | _ :: r =>
          if is_absolute p && Nat.eqb (List.length r) 1 then "//"
          else Str.of_list (rev r)
      end
  end.

Definition parse_dir (p : string) : string :=
  match dir_part p with
  | [] | [_] => if is_absolute p then "/" else ""
  | _ :: r => Str.of_list (rev r)
  end.

(** [normalizeString]: the segments of a path, with empty and [.] segments
    dropped and [..] resolved against the segment before. *)
Definition push_segment (above_root : bool) (stack : list string) (seg : string)
  : list string :=
  if String.eqb seg "" || String.eqb seg "." then stack
  else if String.eqb seg ".." then
    match stack with
    | top :: rest =>
        if String.eqb top ".." then seg :: stack else rest
    | [] => if above_root then [seg] else []
    end
  else seg :: stack.

Fixpoint concat_with (l : list string) : string :=
  match l with
  | [] => ""
  | [s] => s
  | s :: l' => s +:+ "/" +:+ concat_with l'
  end.

Definition ends_with_slash (p : string) : bool :=
  match rev (Str.to_list p) with c :: _ => is_slash c | [] => false end.

Definition normalize (p : string) : string :=
  match p with
  | EmptyString => "."
  | _ =>
      let abs := is_absolute p in
      let trailing := ends_with_slash p in
      let segs := rev (fold_left (push_segment (negb abs)) (Str.split slash p) []) in
      let body := concat_with segs in
      match body with
      | EmptyString => if abs then "/" else if trailing then "./" else "."
      | _ =>
          let body' := if trailing then body +:+ "/" else body in
          if abs then "/" +:+ body' else body'
      end
  end.

Definition join (parts : list string) : string :=
  match List.filter (fun s => negb (String.eqb s "")) parts with
  | [] => "."
  | ps => normalize (concat_with ps)
  end.

#[export] Instance posix : NodePath :=
  Build_NodePath slash join dirname basename parse_dir basename.

End Posix.

(* ================================================================== *)
(** * [glob-to-regexp] *)
(* ================================================================== *)

(** A compiled pattern and its [test] method. *)
Class GlobLib := {
  RegExp : Type;
  GlobToRegExp : string -> RegExp;
  test : RegExp -> string -> bool
}.

(** The library called without options: every run of [*] becomes [.*], any
    other character stands for itself (the punctuation it escapes included),
    and the expression is anchored at both ends.  A backslash in the glob is
    outside this model; the sources pass none. *)
Module GlobDefault.

Inductive re_tok := Any | Chr (c : ascii).

Fixpoint compile_from (after_star : bool) (glob : string) : list re_tok :=
  match glob with
  | EmptyString => []
  | String c g =>
      if Ascii.eqb c "*"%char
      then (if after_star then compile_from true g else Any :: compile_from true g)
      else Chr c :: compile_from false g
  end.

Definition compile (glob : string) : list re_tok := compile_from false glob.

(** Anchored matching; [.] accepts everything but a line terminator. *)
Fixpoint matches (re : list re_tok) (s : string) : bool :=
  match re with
  | [] => match s with EmptyString => true | _ => false end
  | Chr c :: re' =>
      match s with
      | String d s' => Ascii.eqb c d && matches re' s'
      | EmptyString => false
      end
  | Any :: re' =>
      (fix star (s : string) : bool :=
         matches re' s
         || match s with
            | String d s' => negb (Str.is_line_terminator d) && star s'
            | EmptyString => false
            end) s
  end.

#[export] Instance glob_default : GlobLib :=
  Build_GlobLib (list re_tok) compile matches.

End GlobDefault.

(* ================================================================== *)
(** * The process: state, outcomes and the monad of [async] code *)
(* ================================================================== *)

(** A thrown value: the [code] property [exists] inspects and the text
    [`${err}`] interpolates. *)
Record JsError := mkError { err_code : option string; err_text : string }.

(** [fs.Stats], as far as it is asked. *)
Record Stats := mkStats { isFile : bool; isDirectory : bool }.

(** An item of the [klaw] walk. *)
Record Item := mkItem { path : string; stats : Stats }.

Inductive Result (A : Type) := Ok (a : A) | Err (e : JsError).
Arguments Ok {A} a.
Arguments Err {A} e.

(** The file system, as the primitives of [node:fs/promises] and [klaw] see
    it.  [fs_klaw root] is the whole sequence the walk yields, in the order it
    yields it, or the error it ends with. *)
Record FileSys := mkFileSys {
  fs_stat : string -> Result Stats;
  fs_readdir : string -> Result (list string);
  fs_readFile : string -> Result string;
  fs_klaw : string -> Result (list Item)
}.

(** An argument of [console.error]. *)
Inductive ConsoleArg := AStr (s : string) | AErr (e : JsError).

Record Process := mkProcess {
  argv : list string;
  cwd : string;
  fs : FileSys;
  stderr : list (list ConsoleArg)
}.

Inductive Outcome (A : Type) :=
| Ret (a : A)
| Throw (e : JsError)
| Exit (code : Z).
Arguments Ret {A} a.
Arguments Throw {A} e.
Arguments Exit {A} code.

Definition M (A : Type) : Type := Process -> Outcome A * Process.

Definition ret {A} (a : A) : M A := fun p => (Ret a, p).

Definition bind {A B} (m : M A) (k : A -> M B) : M B :=
  fun p =>
    match m p with
    | (Ret a, p') => k a p'
    | (Throw e, p') => (Throw e, p')
    | (Exit c, p') => (Exit c, p')
    end.

Notation "x <- m ;; k" := (bind m (fun x => k))
  (at level 100, m at next level, right associativity).
Notation "m ;;; k" := (bind m (fun _ => k))
  (at level 100, right associativity).

Definition throw {A} (e : JsError) : M A := fun p => (Throw e, p).

(** [process.exit(code)]: nothing after it runs, no handler sees it.
    [Exit] keeps the code the call is given. *)
Definition process_exit {A} (code : Z) : M A := fun p => (Exit code, p).

(** The exit status the parent of the process reads on a POSIX host: the
    low eight bits of the code. *)
Definition exit_status (code : Z) : Z := Z.land code 255.

(** [try { m } catch (err) { h err }]. *)
Definition try_catch {A} (m : M A) (h : JsError -> M A) : M A :=
  fun p =>
    match m p with
    | (Throw e, p') => h e p'
    | r => r
    end.

(** The process after one more call of [console.error]. *)
Definition logged (p : Process) (args : list ConsoleArg) : Process :=
  mkProcess (argv p) (cwd p) (fs p) (stderr p ++ [args]).

Definition console_error (args : list ConsoleArg) : M unit :=
  fun p => (Ret tt, logged p args).

Definition get {A} (f : Process -> A) : M A := fun p => (Ret (f p), p).

(** A primitive of the file system: its result is returned or thrown. *)
Definition lift_fs {A} (f : FileSys -> Result A) : M A :=
  fun p => match f (fs p) with Ok a => (Ret a, p) | Err e => (Throw e, p) end.

(** A value that is returned or thrown. *)
Definition lift_result {A} (r : Result A) : M A :=
  fun p => match r with Ok a => (Ret a, p) | Err e => (Throw e, p) end.

(* ================================================================== *)
(** * [RegExp] *)
(* ================================================================== *)

(** The engine of the host for the expressions whose source holds a
    special character: [new RegExp(source)], which throws a [SyntaxError]
    for a source that is no expression, and [text.replace(re, '')], which
    removes the first match. *)
Class JsRegExp := {
  Pattern : Type;
  new_RegExp : string -> Result Pattern;
  replace_first : Pattern -> string -> string
}.

(* ================================================================== *)
(** * [src/cli/Utils.ts] *)
(* ================================================================== *)

Section Utils.
Context {NP : NodePath}.

(** [exists]: the stats of a path, [None] for the [null] of a path that is
    not there; any other failure of [stat] is thrown again. *)
Definition exists_ (first : string) (others : list string) : M (option Stats) :=
  let pathname := match others with [] => first | _ => path_join (first :: others) end in
  try_catch
    (stats <- lift_fs (fun f => fs_stat f pathname) ;; ret (Some stats))
    (fun err =>
       if decide (err_code err = Some "ENOENT") then ret None else throw err).

Definition pathExists (first : string) (others : list string) : M bool :=
  r <- exists_ first others ;;
  ret (match r with None => false | Some _ => true end).

Definition fileExists (first : string) (others : list string) : M bool :=
  stats <- exists_ first others ;;
  ret (match stats with None => false | Some st => isFile st end).

Definition dirExists (first : string) (others : list string) : M bool :=
  stats <- exists_ first others ;;
  ret (match stats with None => false | Some st => isDirectory st end).

(** [findFiles]: the paths of the walked items that pass the filter, in the
    order of the walk. *)
Definition findFiles (parent : string) (filter : Item -> bool) : M (list string) :=
  items <- lift_fs (fun f => fs_klaw f parent) ;;
  ret (map path (List.filter filter items)).

End Utils.

(* ================================================================== *)
(** * [SubCommandBuildDocs]: the entry points of the documentation *)
(* ================================================================== *)

(** A positional token of the parsed command line: [yargs] hands over a
    string, or a number for a token that reads as one ([7] for [7]).
    [token_text] is what a template literal makes of it. *)
Inductive Token := TString (s : string) | TNumber (text : string).

Definition token_text (tok : Token) : string :=
  match tok with TString s => s | TNumber text => text end.

(** The parsed command line ([yargs]' [Arguments]), as far as it is read:
    the positional tokens [_] and the options of [build-docs]. *)
Record Args := mkArgs {
  positional : list Token;
  src : option string;
  preferIndex : bool
}.

(** [Array.prototype.sort] with a comparator.  The sort is stable, and for a
    consistent comparator its result is the sorted order; inserting from the
    right, each element before the first one it does not follow, computes
    that list. *)
Fixpoint sort_insert {A} (cmp : A -> A -> Z) (x : A) (l : list A) : list A :=
  match l with
  | [] => [x]
  | y :: l' => if (cmp x y <=? 0)%Z then x :: l else y :: sort_insert cmp x l'
  end.

Definition Array_sort {A} (cmp : A -> A -> Z) (l : list A) : list A :=
  foldr (sort_insert cmp) [] l.

Section BuildDocs.
Context {NP : NodePath} {GL : GlobLib} {RE : JsRegExp}.

(** What [new RegExp(`^${cwd}${sep}`)] gives.  A source without special
    characters stands for itself: the expression matches the working
    directory and the separator at the start of a text, and nothing else.
    Any other source is for the engine of the host. *)
Inductive CwdRegExp := Literal (cwd : string) | Special (re : Pattern).

Definition new_cwdRegExp (cwd : string) : Result CwdRegExp :=
  let source := cwd +:+ String sep EmptyString in
  if Str.plain source then Ok (Literal cwd)
  else match new_RegExp ("^" +:+ source) with
       | Ok re => Ok (Special re)
       | Err err => Err err
       end.

(** [p.replace(cwdRegExp, '')] for a working directory without special
    characters: the leading working directory and separator are removed
    when they are there. *)
Definition stripCwd (cwd p : string) : string :=
  match Str.strip_prefix (cwd +:+ String sep EmptyString) p with
  | Some rest => rest
  | None => p
  end.

(** [p.replace(cwdRegExp, '')]. *)
Definition replaceCwd (cwdRegExp : CwdRegExp) (p : string) : string :=
  match cwdRegExp with
  | Literal cwd => stripCwd cwd p
  | Special re => replace_first re p
  end.

(** The filter [getSourceFiles] hands to [findFiles]. *)
Definition sourceFilter (cwdRegExp : CwdRegExp)
           (inclusionsRegExp exclusionsRegExp : list RegExp)
           (item : Item) : bool :=
  if negb (isFile (stats item)) then false
  else
    let relPath := replaceCwd cwdRegExp (path item) in
    match List.find (fun regex => test regex relPath) inclusionsRegExp with
    | Some _ =>
        match List.find (fun regex => test regex relPath) exclusionsRegExp with
        | Some _ => false
        | None => true
        end
    | None => false
    end.

(** One record of [matches]. *)
Record Match := mkMatch {
  filename : string;
  dir : string;
  base : string;
  depth : Z;
  isIndex : bool
}.

Definition toMatch (filename : string) : Match :=
  let dir := parse_dir filename in
  let base := parse_base filename in
  mkMatch filename dir base
          (Z.of_nat (List.length (Str.split sep dir)))
          (String.eqb base "index.ts").

(** The comparator: indexes last, deeper first. *)
Definition compareMatches (a b : Match) : Z :=
  if negb (isIndex a) && isIndex b then (-1)%Z
  else if isIndex a && negb (isIndex b) then 1%Z
  else (depth b - depth a)%Z.

(** The records of the matched files, in the order they are returned. *)
Definition sortedMatches (fileList : list string) : list Match :=
  Array_sort compareMatches (map toMatch fileList).

Definition getSourceFiles (srcRoot : string) (inclusions exclusions : list string)
  : M (list string) :=
  cwd <- get cwd ;;
  cwdRegExp <- lift_result (new_cwdRegExp cwd) ;;
  let inclusionsRegExp := map GlobToRegExp inclusions in
  let exclusionsRegExp := map GlobToRegExp exclusions in
  fileList <- findFiles srcRoot (sourceFilter cwdRegExp inclusionsRegExp exclusionsRegExp) ;;
  ret (map (fun m => replaceCwd cwdRegExp (filename m)) (sortedMatches fileList)).

(** [dirHasIndex], after the [forEach]. *)
Definition dirHasIndexOf (srcFiles : list string) : gmap string bool :=
  foldl (fun (dirHasIndex : gmap string bool) srcFile =>
           if String.eqb (basename srcFile) "index.ts"
           then <[dirname srcFile := true]> dirHasIndex
           else dirHasIndex)
        ∅ srcFiles.

Definition truthy (v : option bool) : bool :=
  match v with Some b => b | None => false end.

Definition preferIndexFilter (srcFiles : list string) : list string :=
  let dirHasIndex := dirHasIndexOf srcFiles in
  List.filter
    (fun srcFile =>
       String.eqb (basename srcFile) "index.ts"
       || negb (truthy (dirHasIndex !! dirname srcFile)))
    srcFiles.

Definition getDefaultEntryPoints (args : Args) : M (list string) :=
  srcRoot <- match src args with
             | Some s => ret s
             | None =>
                 b <- dirExists "src" [] ;;
                 if b then ret "src"
                 else throw (mkError None
                               "Error: Cannot workout the source root, specify with --src")
             end ;;
  (* Ignore test files *)
  srcFiles <- getSourceFiles srcRoot ["**/*.ts"] ["**/*.spec.ts"] ;;
  ret (if preferIndex args then preferIndexFilter srcFiles else srcFiles).

End BuildDocs.

(* ================================================================== *)
(** * [src/cli/koolie.ts]: discovery, registry and dispatch *)
(* ================================================================== *)

(** [/^koolie-SubCmd[^.]*\.js$/.test(name)]: after the prefix, the first dot
    is the one of a final [.js]. *)
Fixpoint dotless_then_js (s : string) : bool :=
  match s with
  | EmptyString => false
  | String c s' =>
      if Ascii.eqb c "."%char then String.eqb s' "js" else dotless_then_js s'
  end.

Definition isSubCommandFile (name : string) : bool :=
  match Str.strip_prefix "koolie-SubCmd" name with
  | Some rest => dotless_then_js rest
  | None => false
  end.

(** The group [(.*\.js)] tried at the start of [s]: [.*] is greedy and stays
    on the line, so the capture is the longest prefix of the line that ends
    in [.js]. *)
Fixpoint greedy_js (s : string) : option string :=
  match s with
  | EmptyString => None
  | String c s' =>
      if Str.is_line_terminator c then None
      else
        match greedy_js s' with
        | Some m => Some (String c m)
        | None =>
            if Ascii.eqb c "."%char && Str.starts_with "js" s'
            then Some ".js" else None
        end
  end.

(** The whole expression [\.\.\\(.*\.js)] tried at the start of [s]. *)
Definition matchAt (s : string) : option string :=
  match Str.strip_prefix "..\" s with
  | Some after => greedy_js after
  | None => None
  end.

(** [/\.\.\\(.*\.js)/g.exec(contents)], the capture [match[1]]: the first
    position where the expression matches wins. *)
Fixpoint wrapperTarget (contents : string) : option string :=
  match contents with
  | EmptyString => None
  | String _ rest =>
      match matchAt contents with
      | Some m => Some m
      | None => wrapperTarget rest
      end
  end.

Section Koolie.
Context {NP : NodePath}.

(** What [create()] returns: the option declarations handed to [yargs]. *)
Variable Builder : Type.

(** An instance of the abstract class [SubCommand]. *)
Record SubCommand := mkSubCommand {
  name : string;
  command : option string;
  description : string;
  create : Builder;
  run : Args -> M Z
}.

(** A value exported by a module: an instance of [SubCommand] or not. *)
Inductive JsValue := VSubCommand (sc : SubCommand) | VOther.

(** The [default] export of an imported module. *)
Inductive DefaultExport :=
| Undefined
| ArrayOf (l : list JsValue)
| Single (v : JsValue).

(** [await import(filename)], read at [.default]. *)
Variable import_default : string -> M DefaultExport.

(** [await argv.argv]: [yargs] parsing the command line, configured with
    the command, description and builder of every sub-command. *)
Variable yargs_argv : list (string * string * Builder) -> M Args.

Definition SubCommandRunner : Type := Args -> M Z.

Definition instancesOf (l : list JsValue) : list SubCommand :=
  flat_map (fun v => match v with VSubCommand sc => [sc] | VOther => [] end) l.

Definition importSubCommandSourceFile (filename : string) (subCommands : list SubCommand)
  : M (list SubCommand) :=
  try_catch
    (defaultExport <- import_default filename ;;
     ret (match defaultExport with
          | Undefined => subCommands
          | ArrayOf l => subCommands ++ instancesOf l
          | Single (VSubCommand sc) => subCommands ++ [sc]
          | Single VOther => subCommands
          end))
    (fun err =>
       console_error [AStr ("Failed to import sub-command source: " +:+ filename +:+ ": "
                            +:+ err_text err)] ;;;
       process_exit 1).

(** The [try] covers reading the wrapper and finding the path; the import
    it ends with is returned without [await], and answers for itself. *)
Definition importWindowsSubCommand (wrapper : string) (subCommands : list SubCommand)
  : M (list SubCommand) :=
  jsSourceFile <-
    try_catch
      (contents <- lift_fs (fun f => fs_readFile f wrapper) ;;
       cwd <- get cwd ;;
       ret (match wrapperTarget contents with
            | Some m1 => Some (path_join [cwd; "node_modules"; m1])
            | None => None
            end))
      (fun err =>
         console_error [AStr ("Failed to import sub-command source via Windows wrapper: "
                              +:+ wrapper +:+ ": " +:+ err_text err)] ;;;
         process_exit 1) ;;
  match jsSourceFile with
  | Some file => importSubCommandSourceFile file subCommands
  | None => ret subCommands
  end.

Definition importSubCommand (filename : string) (subCommands : list SubCommand)
  : M (list SubCommand) :=
  let windowsWrapper := filename +:+ ".js.cmd" in
  viaWrapper <-
    try_catch (fileExists windowsWrapper [])
      (fun err =>
         console_error [AStr ("Failed to import sub-command source: " +:+ filename +:+ ": "
                              +:+ err_text err)] ;;;
         process_exit 1) ;;
  if viaWrapper then importWindowsSubCommand windowsWrapper subCommands
  else importSubCommandSourceFile filename subCommands.

(** [main], lines 18-35: the directory searched for sub-commands. *)
Definition resolveBinDir : M string :=
  argv <- get argv ;;
  script <- match nth_error argv 1 with
            | Some s => ret s
            | None => throw (mkError (Some "ERR_INVALID_ARG_TYPE")
                               "TypeError: The path argument must be of type string")
            end ;;
  let koolieBinDir := dirname script in
  cwd <- get cwd ;;
  let relativeBinDir := path_join [cwd; "node_modules"; ".bin"] in
  let relativeMain := path_join [relativeBinDir; "koolie"] in
  let relativeMainCmd := path_join [relativeBinDir; "koolie.cmd"] in
  found <- fileExists relativeMain [] ;;
  found <- (if found then ret true else fileExists relativeMainCmd []) ;;
  ret (if found then relativeBinDir else koolieBinDir).

(** [main], lines 39-47: the sub-command files of that directory. *)
Definition subCommandFilesIn (koolieBinDir : string) : M (list string) :=
  try_catch
    (names <- lift_fs (fun f => fs_readdir f koolieBinDir) ;;
     ret (map (fun name => path_join [koolieBinDir; name])
              (List.filter isSubCommandFile names)))
    (fun err =>
       console_error [AStr ("Error: Failed to file Koolie sub-command files in "
                            +:+ koolieBinDir +:+ ": " +:+ err_text err)] ;;;
       process_exit 1).

(** [main], lines 51-54: the loop over the files. *)
Fixpoint importAll (subCommandFiles : list string) (subCommands : list SubCommand)
  : M (list SubCommand) :=
  match subCommandFiles with
  | [] => ret subCommands
  | file :: files =>
      subCommands' <- importSubCommand file subCommands ;;
      importAll files subCommands'
  end.

(** [main], lines 64-68: the map filled by the [reduce], and what the same
    [reduce] declares to [yargs]. *)
Definition runnersOf (subCommands : list SubCommand) : gmap string SubCommandRunner :=
  foldl (fun (subCommandRunners : gmap string SubCommandRunner) sc =>
           <[name sc := fun args => run sc args]> subCommandRunners)
        ∅ subCommands.

Definition commandsOf (subCommands : list SubCommand) : list (string * string * Builder) :=
  map (fun sc => (default (name sc) (command sc), description sc, create sc)) subCommands.

(** [args._.shift()]: the first token, [None] for [undefined]. *)
Definition shift (args : Args) : option Token * Args :=
  match positional args with
  | [] => (None, args)
  | tok :: rest => (Some tok, mkArgs rest (src args) (preferIndex args))
  end.

(** [subCommandRunners.get(subCommand)] for the token the unchecked cast
    lets through: the keys are strings, and a number is none of them. *)
Definition getRunner (subCommandRunners : gmap string SubCommandRunner) (key : Token)
  : option SubCommandRunner :=
  match key with
  | TString s => subCommandRunners !! s
  | TNumber _ => None
  end.

(** [main], lines 58-85. *)
Definition dispatch (subCommands : list SubCommand) : M unit :=
  let subCommandRunners := runnersOf subCommands in
  try_catch
    (args <- yargs_argv (commandsOf subCommands) ;;
     let '(subCommand, args) := shift args in
     match subCommand ≫= getRunner subCommandRunners with
     | None =>
         console_error [AStr (default "undefined" (token_text <$> subCommand)
                              +:+ ": Unsupported sub-command")] ;;;
         process_exit 1
     | Some runner =>
         code <- runner args ;;
         process_exit code
     end)
    (fun err => console_error [AErr err] ;;; process_exit 1).

(** [main], lines 18-54: discovery. *)
Definition discover : M (list SubCommand) :=
  koolieBinDir <- resolveBinDir ;;
  subCommandFiles <- subCommandFilesIn koolieBinDir ;;
  importAll subCommandFiles [].

Definition main : M unit :=
  subCommands <- discover ;;
  dispatch subCommands.

(** The module body, lines 164-170. *)
Definition program : M unit :=
  try_catch (main ;;; process_exit 0)
    (fun err =>
       console_error [AStr "Caught unexpected exception"; AErr err] ;;;
       process_exit 1).

End Koolie.

Arguments mkSubCommand {Builder}.
Arguments name {Builder}.
Arguments command {Builder}.
Arguments description {Builder}.
Arguments create {Builder}.
Arguments run {Builder}.
Arguments VSubCommand {Builder}.
Arguments VOther {Builder}.
Arguments Undefined {Builder}.
Arguments ArrayOf {Builder}.
Arguments Single {Builder}.
Arguments instancesOf {Builder}.
Arguments importSubCommandSourceFile {Builder}.
Arguments importWindowsSubCommand {NP Builder}.
Arguments importSubCommand {NP Builder}.
Arguments importAll {NP Builder}.
Arguments runnersOf {Builder}.
Arguments commandsOf {Builder}.
Arguments dispatch {Builder}.
Arguments discover {NP Builder}.
Arguments main {NP Builder}.
Arguments program {NP Builder}.

(* ================================================================== *)
(** * [src/cli/Utils.ts]: messages, package name, JSON files, commands *)
(* ================================================================== *)

(** [showError]: the messages go to [console.error], behind the prefix
    unless the first one starts with it. *)
Definition showError (msgs : list string) : M unit :=
  let prefix := "Error:" in
  match msgs with
  | first :: _ =>
      if Str.starts_with prefix first
      then console_error (map AStr msgs)
      else console_error (AStr prefix :: map AStr msgs)
  | [] => console_error (AStr prefix :: map AStr msgs)
  end.

(** [s.replace(/c/g, '')] and [s.replace(/c/g, d)] for one character. *)
Fixpoint remove_char (c : ascii) (s : string) : string :=
  match s with
  | EmptyString => EmptyString
  | String b s' => if Ascii.eqb b c then remove_char c s' else String b (remove_char c s')
  end.

Fixpoint replace_char (c d : ascii) (s : string) : string :=
  match s with
  | EmptyString => EmptyString
  | String b s' => String (if Ascii.eqb b c then d else b) (replace_char c d s')
  end.

(** [getPackageName], of the value of [process.env.npm_package_name]. *)
Definition getPackageName (npm_package_name : option string) : option string :=
  match npm_package_name with
  | None => None
  | Some n => Some (replace_char "/" "-" (remove_char "@" n))
  end.

Section UtilsFiles.

(** [writeFile(filename, contents, 'utf8')] of [node:fs/promises]. *)
Variable writeFile : string -> string -> M unit.

(** [filterFile]: the source is read, the filter awaited, the result
    written. *)
Definition filterFile (src dst : string) (filter : string -> M string) : M unit :=
  contents <- lift_fs (fun f => fs_readFile f src) ;;
  contents <- filter contents ;;
  writeFile dst contents.

(** The type read from and written to JSON files, with [json5.parse],
    [JSON.stringify] and prettier's [format] for it. *)
Variable T : Type.
Variable json5_parse : string -> Result T.
Variable JSON_stringify : T -> Result string.
Variable prettier_format : string -> Result string.

Definition readJsonFile (filename : string) : M T :=
  contents <-
    try_catch (lift_fs (fun f => fs_readFile f filename))
      (fun err =>
         showError ["Failed to read JSON5 file " +:+ filename +:+ ": " +:+ err_text err] ;;;
         throw err) ;;
  try_catch (lift_result (json5_parse contents))
    (fun err =>
       showError ["Failed to parse JSON5 file " +:+ filename +:+ ": " +:+ err_text err] ;;;
       throw err).

Definition writeJsonStringToFile (filename contents : string) : M unit :=
  formatted <-
    try_catch (lift_result (prettier_format contents))
      (fun err =>
         showError ["Failed to format JSON object: " +:+ err_text err] ;;;
         throw err) ;;
  try_catch (writeFile filename formatted)
    (fun err =>
       showError ["Error: Failed to write JSON file " +:+ filename +:+ ": " +:+ err_text err] ;;;
       throw err).

Definition writeJsonFile (filename : string) (contents : T) : M unit :=
  stringified <-
    try_catch (lift_result (JSON_stringify contents))
      (fun err =>
         showError ["Failed to stringify JSON object: " +:+ err_text err] ;;;
         throw err) ;;
  writeJsonStringToFile filename stringified.

End UtilsFiles.

(** [executeCommand], after [spawn]: the two handlers share the counter
    [fulfilled], and the promise keeps the first settlement it is given. *)
Inductive ChildEvent := ChildError (err : JsError) | ChildClose (code : Z).

Inductive Settlement := Resolved (code : Z) | Rejected (err : JsError).

Record Execution := mkExecution {
  fulfilled : nat;
  calls : nat;
  promise : option Settlement
}.

(** [resolve(code)] and [reject(err)]: a call more, and a settlement if the
    promise had none. *)
Definition settle (s : Settlement) (x : Execution) : Execution :=
  mkExecution (fulfilled x) (S (calls x))
              (match promise x with None => Some s | Some old => Some old end).

(** [!fulfilled++ && reject(err)] and [!fulfilled++ && resolve(code)]. *)
Definition onChildEvent (x : Execution) (ev : ChildEvent) : Execution :=
  let before := fulfilled x in
  let x := mkExecution (S before) (calls x) (promise x) in
  if Nat.eqb before 0
  then settle (match ev with ChildError err => Rejected err | ChildClose code => Resolved code end) x
  else x.

Definition spawned : Execution := mkExecution 0 0 None.

Definition afterEvents (events : list ChildEvent) : Execution :=
  foldl onChildEvent spawned events.

(* ================================================================== *)
(** * [SubCommandBuildDocs.run] *)
(* ================================================================== *)

Module SubCommandBuildDocs.
Section Run.
Context {NP : NodePath} {GL : GlobLib} {RE : JsRegExp}.

(** [console.log] (the process record keeps the error stream only), the
    [message] of a thrown value, and [executeCommand(cmd, args,
    {stdio: 'inherit'})] of [Utils.ts] run on the host. *)
Variable console_log : string -> M unit.
Variable message : JsError -> string.
Variable executeCommand : string -> list string -> M Z.

(** The options [run] reads: those of [getDefaultEntryPoints], and
    [entryPoint], [html], [markdown]. *)
Record DocsArgs := mkDocsArgs {
  common : Args;
  entryPoint : option (list string);
  html : bool;
  markdown : bool
}.

Definition generateHtmlDocs (entryPoints : list string) : M Z :=
  let configFile := path_join ["docs"; "html-config.cjs"] in
  found <- fileExists configFile [] ;;
  if negb found then
    console_log "Skipping HTML generation due to missing config file" ;;;
    ret 0%Z
  else
    console_log "Generating HTML documentation" ;;;
    executeCommand "typedoc" (["--options"; configFile] ++ entryPoints).

Definition generateMarkdownDocs (entryPoints : list string) : M Z :=
  let configFile := path_join ["docs"; "markdown-config.cjs"] in
  found <- fileExists configFile [] ;;
  if negb found then
    console_log "Skipping Markdown generation due to missing config file" ;;;
    ret 0%Z
  else
    console_log "Generating Markdown documentation" ;;;
    executeCommand "typedoc" (["--options"; configFile] ++ entryPoints).

(** [entryPointArgs], after the [forEach]. *)
Definition entryPointArgsOf (entryPoints : list string) : list string :=
  foldl (fun entryPointArgs index => entryPointArgs ++ ["--entryPoints"; index])
        [] entryPoints.

(** [run]; [None] stands for a [return] taken before the end. *)
Definition run (args : DocsArgs) : M Z :=
  let entryPoints := default [] (entryPoint args) in
  resolved <-
    (if (List.length entryPoints <? 1)%nat
     then try_catch
            (entryPoints <- getDefaultEntryPoints (common args) ;; ret (Some entryPoints))
            (fun err => console_error [AStr (message err)] ;;; ret None)
     else ret (Some entryPoints)) ;;
  match resolved with
  | None => ret 1%Z
  | Some entryPoints =>
      let entryPointArgs := entryPointArgsOf entryPoints in
      failed <-
        (if html args
         then rc <- generateHtmlDocs entryPointArgs ;;
              ret (if (rc =? 0)%Z then None else Some rc)
         else ret None) ;;
      match failed with
      | Some rc => ret rc
      | None =>
          failed <-
            (if markdown args
             then rc <- generateMarkdownDocs entryPointArgs ;;
                  ret (if (rc =? 0)%Z then None else Some rc)
             else ret None) ;;
          match failed with
          | Some rc => ret rc
          | None => ret 0%Z
          end
      end
  end.

End Run.
End SubCommandBuildDocs.

(* ================================================================== *)
(** * [src/cli/koolie-SubCmdBuildDist.ts] *)
(* ================================================================== *)

Module SubCommandBuildDist.

Definition ALWAYS_COPY : list string := ["README.md"; "CHANGELOG.md"; "LICENSE"; "yarn.lock"].

(** The elements of [new Set(l)] in the order the [for ... of] meets them:
    each value once, where it first occurs. *)
Fixpoint setFrom (seen l : list string) : list string :=
  match l with
  | [] => []
  | x :: l' =>
      if existsb (String.eqb x) seen then setFrom seen l'
      else x :: setFrom (x :: seen) l'
  end.

Definition setOf (l : list string) : list string := setFrom [] l.

(** [s.replace(/<pat>/g, '')] for a literal [pat]: the text is scanned from
    the left, a match is dropped and the scan goes on after it ([skip]
    counts the characters of a match still to drop). *)
Fixpoint remove_from (pat : string) (skip : nat) (s : string) : string :=
  match s with
  | EmptyString => EmptyString
  | String c s' =>
      match skip with
      | S k => remove_from pat k s'
      | O =>
          if Str.starts_with pat s
          then remove_from pat (String.length pat - 1) s'
          else String c (remove_from pat 0 s')
      end
  end.

(** The filter of [package.json]: [contents.replace(/dist\//gm, '')]. *)
Definition stripDist (contents : string) : string := remove_from "dist/" 0 contents.

Section Run.
Context {NP : NodePath}.

(** [mkdirp], [copy] of [fs-extra] (with [overwrite] and
    [preserveTimestamps]), [writeFile], [path.normalize] and
    [path.resolve], which starts from the working directory. *)
Variable mkdirp : string -> M unit.
Variable copy : string -> string -> M unit.
Variable writeFile : string -> string -> M unit.
Variable path_normalize : string -> string.
Variable path_resolve : string -> string -> string.

(** The options [run] reads. *)
Record DistArgs := mkDistArgs {
  dest : string;
  root : option string;
  files : option (list string)
}.

(** The loop over the files to copy. *)
Fixpoint copyFiles (dstDir : string) (filesToCopy : list string) : M unit :=
  match filesToCopy with
  | [] => ret tt
  | src :: rest =>
      found <- pathExists src [] ;;
      (if found
       then copy src (path_normalize (path_join [dstDir; src]))
       else ret tt) ;;;
      copyFiles dstDir rest
  end.

Definition run (args : DistArgs) : M Z :=
  let dstDir := dest args in
  let rootDir := root args in
  mkdirp dstDir ;;;
  let additionalFiles := default [] (files args) in
  let filesToCopy := ALWAYS_COPY ++ additionalFiles in
  copyFiles dstDir (setOf filesToCopy) ;;;
  cwd <- get cwd ;;
  let etcSrcRoot :=
    path_resolve cwd (match rootDir with
                      | None => "etc"
                      | Some r => path_join [r; "etc"]
                      end) in
  let etcDstRoot := path_join [dstDir; "etc"] in
  hasEtc <- dirExists etcSrcRoot [] ;;
  (if hasEtc then copy etcSrcRoot etcDstRoot else ret tt) ;;;
  filterFile writeFile "package.json" (path_join [dstDir; "package.json"])
             (fun contents => ret (stripDist contents)) ;;;
  ret 0%Z.

End Run.
End SubCommandBuildDist.

(* ================================================================== *)
(** * The vocabulary of the further properties *)
(* ================================================================== *)

(** The sub-commands a default export adds to the list. *)
Definition exportedBy {Builder} (d : DefaultExport Builder) : list (SubCommand Builder) :=
  match d with
  | Undefined => []
  | ArrayOf l => instancesOf l
  | Single (VSubCommand sc) => [sc]
  | Single VOther => []
  end.

(** What a step of discovery may do to the list it is given: return it with
    sub-commands added at its end, or end the process; it throws nothing. *)
Definition Accumulates {Builder} (subCommands : list (SubCommand Builder))
           (r : Outcome (list (SubCommand Builder)) * Process) : Prop :=
  match r with
  | (Ret subCommands', _) => subCommands `prefix_of` subCommands'
  | (Throw _, _) => False
  | (Exit _, _) => True
  end.

(* ================================================================== *)
(** * The vocabulary of the properties *)
(* ================================================================== *)

(** What the expression [^koolie-SubCmd[^.]*\.js$] says of a name. *)
Definition SubCommandName (name : string) : Prop :=
  exists mid, name = "koolie-SubCmd" +:+ mid +:+ ".js" /\ Str.mem "."%char mid = false.

Definition Contains (sub s : string) : Prop :=
  exists pre post, s = pre +:+ sub +:+ post.

Definition EndsWithJs (frag : string) : Prop :=
  exists stem, frag = stem +:+ ".js".

(** [body] holds [..\<frag>] with [frag] on one line and ending in [.js]. *)
Definition WrapperReference (body frag : string) : Prop :=
  exists pre post,
    body = pre +:+ "..\" +:+ frag +:+ post
    /\ EndsWithJs frag
    /\ Str.no_line_terminator frag = true.

(** No [.js] follows on the line [post] starts with. *)
Definition NoLaterJs (post : string) : Prop :=
  forall a b, post = a +:+ ".js" +:+ b -> Str.no_line_terminator a = false.

(** What a probe of [f] can meet: a regular file, no regular file (nothing
    there, or something that is not a file), or a failure of [stat] other
    than [ENOENT]. *)
Definition IsFileAt (p : Process) (f : string) : Prop :=
  exists st, fs_stat (fs p) f = Ok st /\ isFile st = true.

Definition NoFileAt (p : Process) (f : string) : Prop :=
  (exists st, fs_stat (fs p) f = Ok st /\ isFile st = false)
  \/ (exists e, fs_stat (fs p) f = Err e /\ err_code e = Some "ENOENT").

Definition StatFailsAt (p : Process) (f : string) (e : JsError) : Prop :=
  fs_stat (fs p) f = Err e /\ err_code e <> Some "ENOENT".

(** Nothing is at [f]: [stat] fails with [ENOENT]. *)
Definition NothingAt (p : Process) (f : string) : Prop :=
  exists e, fs_stat (fs p) f = Err e /\ err_code e = Some "ENOENT".

(** A comparator's order: [x] may come before [y]. *)
Definition cmp_le {A} (cmp : A -> A -> Z) (x y : A) : Prop := (cmp x y <= 0)%Z.

Section Vocabulary.
Context {NP : NodePath} {GL : GlobLib} {RE : JsRegExp}.

(** The working directory, with the separator after it, holds no character
    special to regular expressions. *)
Definition PlainCwd (p : Process) : Prop :=
  Str.plain (cwd p +:+ String sep EmptyString) = true.

(** [fileList]: the paths [findFiles] returns for a walk, in its order,
    for a working directory without special characters. *)
Definition matchedFiles (cwd : string) (inclusions exclusions : list string)
           (items : list Item) : list string :=
  map path (List.filter (sourceFilter (Literal cwd) (map GlobToRegExp inclusions)
                                      (map GlobToRegExp exclusions)) items).

(** The path returned for a record. *)
Definition relativePath (cwd : string) (m : Match) : string :=
  stripCwd cwd (filename m).

(** The rule of inclusion, on a relative path. *)
Definition Included (inclusions exclusions : list string) (relPath : string) : Prop :=
  (exists glob, glob ∈ inclusions /\ test (GlobToRegExp glob) relPath = true)
  /\ (forall glob, glob ∈ exclusions -> test (GlobToRegExp glob) relPath = false).

(** The root [getDefaultEntryPoints] walks: [--src], or [src] when that is
    a directory. *)
Definition SourceRoot (args : Args) (p : Process) (root : string) : Prop :=
  match src args with
  | Some s => root = s
  | None =>
      root = "src"
      /\ exists st, fs_stat (fs p) "src" = Ok st /\ isDirectory st = true
  end.

(** The records of one index-status and one depth. *)
Definition inClass (idx : bool) (d : Z) (m : Match) : bool :=
  Bool.eqb (isIndex m) idx && (depth m =? d)%Z.

(** The order of the result: no index file before a file that is not one,
    and of two records of one index-status the later is never the deeper. *)
Definition EntryOrder (ms : list Match) : Prop :=
  forall i j a b, i < j -> ms !! i = Some a -> ms !! j = Some b ->
    (isIndex a = true -> isIndex b = true)
    /\ (isIndex a = isIndex b -> (depth b <= depth a)%Z).

(** The keys of the order, read off a file name: whether its base name is
    [index.ts], and how many separators its directory name holds. *)
Definition isIndexPath (file : string) : bool :=
  String.eqb (parse_base file) "index.ts".

Definition separators (file : string) : nat :=
  Str.count sep (parse_dir file).

(** The files of one index-status and one number of separators. *)
Definition inPathClass (idx : bool) (d : nat) (file : string) : bool :=
  Bool.eqb (isIndexPath file) idx && (separators file =? d)%nat.

(** The order of the files returned: no index file before a file that is
    not one, and of two files of one index-status the later never has the
    more separators in its directory name. *)
Definition PathOrder (files : list string) : Prop :=
  forall i j f g, i < j -> files !! i = Some f -> files !! j = Some g ->
    (isIndexPath f = true -> isIndexPath g = true)
    /\ (isIndexPath f = isIndexPath g -> separators g <= separators f).

(** The path segments of a directory name: its pieces between separators,
    the empty ones apart. *)
Definition segments (dir : string) : list string :=
  List.filter (fun piece => negb (String.eqb piece "")) (Str.split sep dir).

Definition inDir (d : string) (srcFile : string) : bool :=
  String.eqb (dirname srcFile) d.

Definition isIndexFile (srcFile : string) : bool :=
  String.eqb (basename srcFile) "index.ts".

End Vocabulary.

(* ================================================================== *)
(** * Scenarios *)
(* ================================================================== *)

(** The engine of the scenarios.  One source with a special character is
    compiled in them, [^/proj/c++/], and the engine of Node refuses it: a
    quantifier follows a quantifier.  [engine] stands for it on that
    source. *)
Module Engine.

Definition nothing_to_repeat (source : string) : JsError :=
  mkError None ("SyntaxError: Invalid regular expression: /" +:+ source
                +:+ "/: Nothing to repeat").

#[export] Instance engine : JsRegExp :=
  Build_JsRegExp unit (fun source => Err (nothing_to_repeat source)) (fun _ text => text).

End Engine.

Module Scenario.
Import Posix GlobDefault Engine.

Definition regular : Stats := mkStats true false.
Definition folder : Stats := mkStats false true.
Definition plain_file (f : string) : Item := mkItem f regular.
Definition directory (f : string) : Item := mkItem f folder.

Definition enoent : JsError := mkError (Some "ENOENT") "Error: ENOENT: no such file or directory".
Definition enotdir : JsError := mkError (Some "ENOTDIR") "Error: ENOTDIR: not a directory".

Definition missing {A} (_ : string) : Result A := Err enoent.

Definition script_argv : list string := ["/usr/bin/node"; "/opt/koolie/dist/cli/koolie.js"].

(** The tree [a/b/index.ts], [a/b/widget.ts], [a/index.ts] under [/proj]. *)
Definition tree_files : list Item :=
  [plain_file "/proj/a/b/index.ts"; plain_file "/proj/a/b/widget.ts";
   plain_file "/proj/a/index.ts"].

Definition tree_walk : list Item :=
  [directory "/proj/a"; directory "/proj/a/b"] ++ tree_files.

Definition tree_fs : FileSys :=
  mkFileSys missing missing missing
            (fun root => if String.eqb root "a" then Ok tree_walk else Err enoent).

Definition tree_process : Process := mkProcess script_argv "/proj" tree_fs [].

(** A source root [src] holding [x.ts] and [x.spec.ts]. *)
Definition spec_files : list Item :=
  [plain_file "/proj/src/x.ts"; plain_file "/proj/src/x.spec.ts"].

Definition spec_fs : FileSys :=
  mkFileSys (fun f => if String.eqb f "src" then Ok folder else Err enoent)
            missing missing
            (fun root => if String.eqb root "src"
                         then Ok (directory "/proj/src" :: spec_files)
                         else Err enoent).

Definition spec_process : Process := mkProcess script_argv "/proj" spec_fs [].

(** Sub-commands whose runner resolves to a fixed status. *)
Definition exiting (name : string) (code : Z) : SubCommand unit :=
  mkSubCommand name None "" tt (fun _ => ret code).

(** Two sub-commands of one name, told apart by their status. *)
Definition first_build : SubCommand unit := exiting "build-dist" 0.
Definition second_build : SubCommand unit := exiting "build-dist" 7.

Definition no_module (_ : string) : M (DefaultExport unit) := ret Undefined.

(** [yargs] returning the given positional tokens. *)
Definition parsed_as (tokens : list Token) (_ : list (string * string * unit)) : M Args :=
  ret (mkArgs tokens None true).

Definition parsed (tokens : list string) : list (string * string * unit) -> M Args :=
  parsed_as (map TString tokens).

(** A project whose [node_modules] is a regular file: [stat] below it
    fails with [ENOTDIR]. *)
Definition notdir_fs : FileSys :=
  mkFileSys (fun f => if Str.starts_with "/proj/node_modules/" f then Err enotdir
                      else Err enoent)
            missing missing missing.

Definition notdir_process : Process := mkProcess script_argv "/proj" notdir_fs [].

(** A project with a local [koolie.cmd] and one wrapped sub-command. *)
Definition dquote : string := String (ascii_of_nat 34) EmptyString.

Definition wrapper_body : string :=
  "@" +:+ dquote +:+ "%~dp0\..\@koolie\tooling\dist\cli\koolie-SubCmdFoo.js"
      +:+ dquote +:+ "   %*".

Definition bin_entries : list string :=
  ["koolie.cmd"; "koolie-SubCmdFoo.js"; "koolie-SubCmdFoo.js.js.cmd";
   "koolie-SubCmdFoo.bar.js"].

Definition windows_fs : FileSys :=
  mkFileSys
    (fun f => if existsb (fun entry => String.eqb f ("/proj/node_modules/.bin/" +:+ entry))
                         bin_entries
              then Ok regular else Err enoent)
    (fun d => if String.eqb d "/proj/node_modules/.bin" then Ok bin_entries
              else Err enoent)
    (fun f => if String.eqb f "/proj/node_modules/.bin/koolie-SubCmdFoo.js.js.cmd"
              then Ok wrapper_body else Err enoent)
    missing.

Definition windows_process : Process := mkProcess script_argv "/proj" windows_fs [].

(** The loader of that project: the module the wrapper refers to exports
    one sub-command. *)
Definition windows_loader (file : string) : M (DefaultExport unit) :=
  if String.eqb file "/proj/node_modules/@koolie\tooling\dist\cli\koolie-SubCmdFoo.js"
  then ret (Single (VSubCommand (exiting "foo" 3)))
  else throw (mkError (Some "ERR_MODULE_NOT_FOUND") "Error: Cannot find module").

(** The source root [src] of a project in [/proj/c++]. *)
Definition plus_process : Process := mkProcess script_argv "/proj/c++" spec_fs [].

(** A walk that starts at the root of the file system and meets [/x.ts]
    before [/a/x.ts]. *)
Definition root_fs : FileSys :=
  mkFileSys missing missing missing
            (fun root => if String.eqb root "/"
                         then Ok [directory "/"; plain_file "/x.ts"; directory "/a";
                                  plain_file "/a/x.ts"]
                         else Err enoent).

Definition root_process : Process := mkProcess script_argv "/proj" root_fs [].

(** The files [x.ts] and [x.spec.ts] in the working directory itself. *)
Definition flat_fs : FileSys :=
  mkFileSys missing missing missing
            (fun root => if String.eqb root "."
                         then Ok [directory "/proj"; plain_file "/proj/x.ts";
                                  plain_file "/proj/x.spec.ts"]
                         else Err enoent).

Definition flat_process : Process := mkProcess script_argv "/proj" flat_fs [].

(** A wrapper whose line goes on after the reference [..\a.js], and the
    loader of a project that has the module [a.js] alone. *)
Definition long_line : string := "@..\a.js and b.js".

Definition long_line_fs : FileSys :=
  mkFileSys missing missing
            (fun f => if String.eqb f "/proj/node_modules/.bin/koolie-SubCmdFoo.js.js.cmd"
                      then Ok long_line else Err enoent)
            missing.

Definition long_line_process : Process := mkProcess script_argv "/proj" long_line_fs [].

Definition module_not_found : JsError :=
  mkError (Some "ERR_MODULE_NOT_FOUND") "Error [ERR_MODULE_NOT_FOUND]: Cannot find module".

Definition a_loader (file : string) : M (DefaultExport unit) :=
  if String.eqb file "/proj/node_modules/a.js"
  then ret (Single (VSubCommand (exiting "foo" 3)))
  else throw module_not_found.

(** [yargs] with [demandCommand] and [recommendCommands], as far as the
    scenarios go.  The token after the script is the command; without one
    the parser fails with status 1.  A token that is no declared command
    and has a declared command near it ([yargs] measures the edit distance;
    [near] gives the command it finds) is answered with a recommendation on
    the error stream and status 1; any other token is handed over. *)
Definition recommending (near : string -> option string)
           (commands : list (string * string * unit)) : M Args :=
  argv <- get argv ;;
  match nth_error argv 2 with
  | None =>
      console_error [AStr "Not enough non-option arguments: got 0, need at least 1"] ;;;
      process_exit 1
  | Some tok =>
      let declared c := existsb (fun entry => String.eqb (fst (fst entry)) c) commands in
      if declared tok then ret (mkArgs [TString tok] None true)
      else
        match near tok with
        | Some c =>
            if declared c
            then console_error [AStr ("Did you mean " +:+ c +:+ "?")] ;;; process_exit 1
            else ret (mkArgs [TString tok] None true)
        | None => ret (mkArgs [TString tok] None true)
        end
  end.

Definition near_build_dist (tok : string) : option string :=
  if String.eqb tok "build-dst" then Some "build-dist" else None.

Definition typo_process : Process :=
  mkProcess (script_argv ++ ["build-dst"]) "/proj" tree_fs [].

End Scenario.

(** Scenarios of the further properties. *)
Module Builds.
Import Posix GlobDefault Engine Scenario.

(** The [message] of an error whose text starts with the name [Error]. *)
Definition bare_message (err : JsError) : string :=
  match Str.strip_prefix "Error: " (err_text err) with
  | Some message => message
  | None => err_text err
  end.

(** A project with the configuration of the HTML documentation only, and
    its [package.json]. *)
Definition docs_fs : FileSys :=
  mkFileSys (fun f => if String.eqb f "docs/html-config.cjs" then Ok regular
                      else Err enoent)
            missing
            (fun f => if String.eqb f "package.json"
                      then Ok "{ main: dist/index.js, types: dist/index.d.ts }"
                      else Err enoent)
            missing.

Definition docs_process : Process := mkProcess script_argv "/proj" docs_fs [].

Definition quiet_log (_ : string) : M unit := ret tt.

(** A [typedoc] that ends with the number of its arguments. *)
Definition counting_typedoc (_ : string) (args : list string) : M Z :=
  ret (Z.of_nat (List.length args)).

Definition two_commands : list (SubCommand unit) :=
  [exiting "build-dist" 0; exiting "build-docs" 1].

Definition dist_module (_ : string) : DefaultExport unit :=
  ArrayOf [VSubCommand (exiting "build-dist" 0); VOther; VSubCommand (exiting "build-docs" 1)].

Definition pure_loader (file : string) : M (DefaultExport unit) := ret (dist_module file).

Definition syntax_error : JsError := mkError None "SyntaxError: Unexpected token".

Definition failing_loader (_ : string) : M (DefaultExport unit) := throw syntax_error.

(** A project where [stat] is refused. *)
Definition eacces : JsError := mkError (Some "EACCES") "Error: EACCES: permission denied".

Definition denied_fs : FileSys :=
  mkFileSys (fun f => if String.eqb f "LICENSE" then Err eacces else Err enoent)
            missing missing missing.

Definition denied_process : Process := mkProcess script_argv "/proj" denied_fs [].

(** A loader that fails for one module. *)
Definition partial_loader (file : string) : M (DefaultExport unit) :=
  if String.eqb file "/opt/koolie/dist/cli/koolie-SubCmdBroken.js"
  then throw syntax_error
  else pure_loader file.

(** A [typedoc] that succeeds. *)
Definition passing_typedoc (_ : string) (_ : list string) : M Z := ret 0%Z.

(** A [writeFile] that leaves what it is given on the error stream. *)
Definition traced_write (filename contents : string) : M unit :=
  console_error [AStr filename; AStr contents].

Definition no_effect (_ : string) : M unit := ret tt.
Definition no_effect2 (_ _ : string) : M unit := ret tt.
Definition resolve_posix (cwd f : string) : string :=
  if is_absolute f then normalize f else path_join [cwd; f].

End Builds.

(* ================================================================== *)
(** * Reasoning about the monad *)
(* ================================================================== *)

Ltac unfold_m :=
  unfold bind, try_catch, lift_fs, get, ret, throw, process_exit, console_error.

(* ================================================================== *)
(** * Strings: facts *)
(* ================================================================== *)

Section StringFacts.

Lemma append_assoc (a b c : string) : (a +:+ b) +:+ c = a +:+ (b +:+ c).
Proof. induction a as [|x a IH]; simpl; [reflexivity | f_equal; exact IH]. Qed.

Lemma strip_prefix_Some (p s r : string) :
  Str.strip_prefix p s = Some r <-> s = p +:+ r.
Proof.
  revert s. induction p as [|a p IH]; intros s; simpl.
  - split; [intros [= ->]; reflexivity | intros ->; reflexivity].
  - destruct s as [|b s].
    + split; [discriminate | intros [=]].
    + destruct (Ascii.eqb a b) eqn:E.
      * apply Ascii.eqb_eq in E as ->. rewrite IH.
        split; [intros ->; reflexivity | intros [= ->]; reflexivity].
      * split; [discriminate |].
        intros [= -> _]. rewrite Ascii.eqb_refl in E. discriminate.
Qed.

Lemma strip_prefix_append (p r : string) : Str.strip_prefix p (p +:+ r) = Some r.
Proof. now apply strip_prefix_Some. Qed.

Lemma no_line_terminator_app (a b : string) :
  Str.no_line_terminator (a +:+ b) = Str.no_line_terminator a && Str.no_line_terminator b.
Proof.
  induction a as [|c a IH]; simpl; [reflexivity |].
  rewrite IH. now rewrite andb_assoc.
Qed.

Lemma includes_complete (sub s : string) :
  Contains sub s -> Str.includes sub s = true.
Proof.
  intros [pre [post ->]]. induction pre as [|c pre IH].
  - change ("" +:+ sub +:+ post) with (sub +:+ post).
    assert (H : Str.starts_with sub (sub +:+ post) = true).
    { unfold Str.starts_with.
      now rewrite (proj2 (strip_prefix_Some sub (sub +:+ post) post) eq_refl). }
    destruct (sub +:+ post); cbn [Str.includes]; now rewrite H.
  - change (String c pre +:+ sub +:+ post) with (String c (pre +:+ sub +:+ post)).
    cbn [Str.includes]. rewrite IH. apply orb_true_r.
Qed.

End StringFacts.

(* ================================================================== *)
(** * The name filter of discovery *)
(* ================================================================== *)

Lemma dotless_then_js_spec (s : string) :
  dotless_then_js s = true <->
  exists mid, s = mid +:+ ".js" /\ Str.mem "."%char mid = false.
Proof.
  induction s as [|c s IH]; simpl.
  - split; [discriminate |]. intros [[|x mid] [E _]]; discriminate.
  - destruct (Ascii.eqb c ".") eqn:Ec.
    + apply Ascii.eqb_eq in Ec as ->. split.
      * intros H. apply String.eqb_eq in H as ->. now exists "".
      * intros [[|x mid] [E Hm]].
        -- simpl in E. injection E as ->. reflexivity.
        -- simpl in E. injection E as <- _. simpl in Hm. discriminate.
    + rewrite IH. split.
      * intros [mid [-> Hm]]. exists (String c mid). split; [reflexivity |].
        simpl. rewrite Ec. exact Hm.
      * intros [[|x mid] [E Hm]].
        -- simpl in E. injection E as -> _. discriminate.
        -- simpl in E. injection E as -> ->. exists mid. split; [reflexivity |].
           simpl in Hm. now apply orb_false_elim in Hm as [_ Hm].
  Qed.

Lemma isSubCommandFile_spec (name : string) :
  isSubCommandFile name = true <-> SubCommandName name.
Proof.
  unfold isSubCommandFile, SubCommandName.
  destruct (Str.strip_prefix "koolie-SubCmd" name) as [rest|] eqn:E.
  - apply strip_prefix_Some in E as ->. rewrite dotless_then_js_spec. split.
    + intros [mid [-> Hm]]. now exists mid.
    + intros [mid [Heq Hm]]. exists mid. split; [|exact Hm].
      simpl in Heq. now injection Heq.
  - split; [discriminate |]. intros [mid [-> _]].
    rewrite strip_prefix_append in E. discriminate.
Qed.

(* ================================================================== *)
(** * The path a wrapper refers to *)
(* ================================================================== *)

Section WrapperFacts.

Lemma greedy_js_sound (s m : string) :
  greedy_js s = Some m ->
  EndsWithJs m /\ Str.no_line_terminator m = true /\ exists post, s = m +:+ post.
Proof.
  revert m. induction s as [|c s IH]; intros m; simpl; [discriminate |].
  destruct (Str.is_line_terminator c) eqn:Ec; [discriminate |].
  destruct (greedy_js s) as [m'|] eqn:Eg.
  - intros [= <-]. destruct (IH m' eq_refl) as [[stem ->] [Hn [post ->]]].
    split; [now exists (String c stem) |].
    split; [simpl; now rewrite Ec, Hn |].
    now exists post.
  - destruct (Ascii.eqb c ".") eqn:Ed; simpl; [|discriminate].
    unfold Str.starts_with.
    destruct (Str.strip_prefix "js" s) as [r|] eqn:Ep; [|discriminate].
    intros [= <-]. apply Ascii.eqb_eq in Ed as ->.
    apply strip_prefix_Some in Ep as ->.
    split; [now exists "" |]. split; [reflexivity | now exists r].
Qed.

Lemma greedy_js_complete (stem post : string) :
  Str.no_line_terminator stem = true ->
  exists m, greedy_js (stem +:+ ".js" +:+ post) = Some m.
Proof.
  set (tl := ".js" +:+ post).
  induction stem as [|c stem IH]; simpl.
  - intros _. subst tl. simpl. destruct (greedy_js _) as [m'|]; eauto.
  - intros H. apply andb_true_iff in H as [Hc Hs].
    apply negb_true_iff in Hc. rewrite Hc.
    destruct (IH Hs) as [m ->]. eauto.
Qed.

Lemma greedy_js_exact (stem post : string) :
  Str.no_line_terminator stem = true ->
  greedy_js post = None ->
  greedy_js (stem +:+ ".js" +:+ post) = Some (stem +:+ ".js").
Proof.
  intros Hs Hp. set (tl := ".js" +:+ post).
  induction stem as [|c stem IH]; simpl.
  - subst tl. simpl. now rewrite Hp.
  - simpl in Hs. apply andb_true_iff in Hs as [Hc Hs].
    apply negb_true_iff in Hc. rewrite Hc. now rewrite (IH Hs).
Qed.

Lemma NoLaterJs_greedy (post : string) : NoLaterJs post -> greedy_js post = None.
Proof.
  intros H. destruct (greedy_js post) as [m|] eqn:E; [|reflexivity].
  apply greedy_js_sound in E as [[stem ->] [Hn [r ->]]].
  rewrite no_line_terminator_app in Hn. apply andb_true_iff in Hn as [Hn _].
  specialize (H stem r). rewrite append_assoc in H.
  rewrite (H eq_refl) in Hn. discriminate.
Qed.

Lemma matchAt_Some (s m : string) :
  matchAt s = Some m <-> exists after, s = "..\" +:+ after /\ greedy_js after = Some m.
Proof.
  unfold matchAt. destruct (Str.strip_prefix "..\" s) as [after|] eqn:E.
  - apply strip_prefix_Some in E as ->. split; [eauto |].
    intros [after' [Heq Hg]]. simpl in Heq. now injection Heq as ->.
  - split; [discriminate |]. intros [after [-> _]].
    rewrite strip_prefix_append in E. discriminate.
Qed.

Lemma matchAt_here (after : string) : matchAt ("..\" +:+ after) = greedy_js after.
Proof. unfold matchAt. now rewrite strip_prefix_append. Qed.

Lemma wrapperTarget_sound (body m : string) :
  wrapperTarget body = Some m -> WrapperReference body m.
Proof.
  induction body as [|c body IH]; cbn [wrapperTarget]; [discriminate |].
  destruct (matchAt (String c body)) as [m'|] eqn:E.
  - intros [= ->]. apply matchAt_Some in E as [after [-> Hg]].
    apply greedy_js_sound in Hg as [He [Hn [post ->]]].
    exists "", post. now repeat split.
  - intros H. destruct (IH H) as [pre [post [-> [He Hn]]]].
    exists (String c pre), post. now repeat split.
Qed.

Lemma wrapperTarget_complete (body frag : string) :
  WrapperReference body frag -> exists m, wrapperTarget body = Some m.
Proof.
  intros [pre [post [-> [[stem ->] Hn]]]].
  rewrite no_line_terminator_app in Hn. apply andb_true_iff in Hn as [Hn _].
  rewrite append_assoc.
  induction pre as [|c pre IH].
  - destruct (greedy_js_complete stem post Hn) as [m Hm].
    exists m. change ("" +:+ "..\" +:+ stem +:+ ".js" +:+ post)
      with (String "." (".\" +:+ stem +:+ ".js" +:+ post)).
    cbn [wrapperTarget].
    change (String "." (".\" +:+ stem +:+ ".js" +:+ post))
      with ("..\" +:+ stem +:+ ".js" +:+ post).
    now rewrite matchAt_here, Hm.
  - destruct IH as [m Hm].
    change (String c pre +:+ "..\" +:+ stem +:+ ".js" +:+ post)
      with (String c (pre +:+ "..\" +:+ stem +:+ ".js" +:+ post)).
    cbn [wrapperTarget]. rewrite Hm.
    destruct (matchAt _) as [m'|]; eauto.
Qed.

Lemma wrapperTarget_None (body : string) :
  wrapperTarget body = None <-> ~ exists frag, WrapperReference body frag.
Proof.
  split.
  - intros H [frag Hr]. apply wrapperTarget_complete in Hr as [m Hm]. congruence.
  - intros H. destruct (wrapperTarget body) as [m|] eqn:E; [|reflexivity].
    exfalso. apply H. exists m. now apply wrapperTarget_sound.
Qed.

Lemma matchAt_dotless (c : ascii) (pre rest : string) :
  ~ Contains ".." (String c pre) ->
  matchAt (String c pre +:+ "..\" +:+ rest) = None.
Proof.
  intros H. destruct (matchAt _) as [m|] eqn:E; [|reflexivity].
  exfalso. apply matchAt_Some in E as [after [Heq _]].
  simpl in Heq. injection Heq as -> Heq.
  destruct pre as [|d pre]; simpl in Heq.
  - injection Heq as _ Heq. discriminate.
  - injection Heq as -> _. apply H. now exists "", pre.
Qed.

Lemma wrapperTarget_exact (pre stem post : string) :
  ~ Contains ".." pre ->
  Str.no_line_terminator stem = true ->
  NoLaterJs post ->
  wrapperTarget (pre +:+ "..\" +:+ (stem +:+ ".js") +:+ post) = Some (stem +:+ ".js").
Proof.
  intros Hpre Hs Hpost. apply NoLaterJs_greedy in Hpost.
  rewrite append_assoc.
  induction pre as [|c pre IH].
  - change ("" +:+ "..\" +:+ stem +:+ ".js" +:+ post)
      with (String "." (".\" +:+ stem +:+ ".js" +:+ post)).
    cbn [wrapperTarget].
    change (String "." (".\" +:+ stem +:+ ".js" +:+ post))
      with ("..\" +:+ stem +:+ ".js" +:+ post).
    now rewrite matchAt_here, (greedy_js_exact stem post Hs Hpost).
  - assert (Hpre' : ~ Contains ".." pre).
    { intros [a [b ->]]. apply Hpre. now exists (String c a), b. }
    pose proof (matchAt_dotless c pre (stem +:+ ".js" +:+ post) Hpre) as Hm.
    change (String c pre +:+ "..\" +:+ stem +:+ ".js" +:+ post)
      with (String c (pre +:+ "..\" +:+ stem +:+ ".js" +:+ post)) in *.
    cbn [wrapperTarget]. rewrite Hm. exact (IH Hpre').
Qed.

End WrapperFacts.

(* ================================================================== *)
(** * Discovery and dispatch: facts *)
(* ================================================================== *)

Section KoolieFacts.
Context {NP : NodePath}.
Variable Builder : Type.
Variable import_default : string -> M (DefaultExport Builder).
Variable yargs_argv : list (string * string * Builder) -> M Args.

(** ** Probes *)

Lemma exists_found (f : string) (st : Stats) (p : Process) :
  fs_stat (fs p) f = Ok st -> exists_ f [] p = (Ret (Some st), p).
Proof. intros H. unfold exists_. unfold_m. now rewrite H. Qed.

Lemma exists_missing (f : string) (e : JsError) (p : Process) :
  fs_stat (fs p) f = Err e -> err_code e = Some "ENOENT" ->
  exists_ f [] p = (Ret None, p).
Proof.
  intros H Hc. unfold exists_. unfold_m. rewrite H.
  destruct (decide (err_code e = Some "ENOENT")); [reflexivity | contradiction].
Qed.

Lemma exists_fails (f : string) (e : JsError) (p : Process) :
  fs_stat (fs p) f = Err e -> err_code e <> Some "ENOENT" ->
  exists_ f [] p = (Throw e, p).
Proof.
  intros H Hc. unfold exists_. unfold_m. rewrite H.
  destruct (decide (err_code e = Some "ENOENT")); [contradiction | reflexivity].
Qed.

Lemma fileExists_found (f : string) (st : Stats) (p : Process) :
  fs_stat (fs p) f = Ok st -> fileExists f [] p = (Ret (isFile st), p).
Proof. intros H. unfold fileExists, bind. now rewrite (exists_found f st p H). Qed.

Lemma fileExists_missing (f : string) (e : JsError) (p : Process) :
  fs_stat (fs p) f = Err e -> err_code e = Some "ENOENT" ->
  fileExists f [] p = (Ret false, p).
Proof. intros H Hc. unfold fileExists, bind. now rewrite (exists_missing f e p H Hc). Qed.

Lemma fileExists_fails (f : string) (e : JsError) (p : Process) :
  fs_stat (fs p) f = Err e -> err_code e <> Some "ENOENT" ->
  fileExists f [] p = (Throw e, p).
Proof. intros H Hc. unfold fileExists, bind. now rewrite (exists_fails f e p H Hc). Qed.

(** ** The wrapper *)

Lemma importSubCommandSourceFile_cases
      (filename : string) (scs : list (SubCommand Builder)) (p : Process) :
  importSubCommandSourceFile import_default filename scs p
  = match import_default filename p with
    | (Ret d, p') => (Ret (scs ++ exportedBy d), p')
    | (Throw err, p') =>
        (Exit 1, logged p' [AStr ("Failed to import sub-command source: " +:+ filename
                                  +:+ ": " +:+ err_text err)])
    | (Exit code, p') => (Exit code, p')
    end.
Proof.
  unfold importSubCommandSourceFile. unfold_m.
  destruct (import_default filename p) as [[d|err|code] p']; [|reflexivity|reflexivity].
  destruct d as [|l|[sc|]]; simpl; rewrite ?app_nil_r; reflexivity.
Qed.

Lemma importWindows_target (wrapper body frag : string) (scs : list (SubCommand Builder)) (p : Process) :
  fs_readFile (fs p) wrapper = Ok body ->
  wrapperTarget body = Some frag ->
  importWindowsSubCommand import_default wrapper scs p
  = importSubCommandSourceFile import_default (path_join [cwd p; "node_modules"; frag]) scs p.
Proof.
  intros Hr Ht. unfold importWindowsSubCommand. unfold_m.
  now rewrite Hr, Ht.
Qed.

Lemma importWindows_none (wrapper body : string) (scs : list (SubCommand Builder)) (p : Process) :
  fs_readFile (fs p) wrapper = Ok body ->
  wrapperTarget body = None ->
  importWindowsSubCommand import_default wrapper scs p = (Ret scs, p).
Proof.
  intros Hr Ht. unfold importWindowsSubCommand. unfold_m.
  now rewrite Hr, Ht.
Qed.



Lemma fileExists_IsFileAt (f : string) (p : Process) :
  IsFileAt p f -> fileExists f [] p = (Ret true, p).
Proof. intros [st [H Hf]]. rewrite (fileExists_found f st p H). now rewrite Hf. Qed.

Lemma fileExists_NoFileAt (f : string) (p : Process) :
  NoFileAt p f -> fileExists f [] p = (Ret false, p).
Proof.
  intros [[st [H Hf]] | [e [H Hc]]].
  - rewrite (fileExists_found f st p H). now rewrite Hf.
  - now apply fileExists_missing with e.
Qed.

Lemma fileExists_StatFailsAt (f : string) (e : JsError) (p : Process) :
  StatFailsAt p f e -> fileExists f [] p = (Throw e, p).
Proof. intros [H Hc]. now apply fileExists_fails. Qed.

(** ** The directory searched *)

Lemma resolveBinDir_unfold (p : Process) (script : string) :
  nth_error (argv p) 1 = Some script ->
  resolveBinDir p =
  (let relativeBinDir := path_join [cwd p; "node_modules"; ".bin"] in
   found <- fileExists (path_join [relativeBinDir; "koolie"]) [] ;;
   found <- (if found then ret true
             else fileExists (path_join [relativeBinDir; "koolie.cmd"]) []) ;;
   ret (if found then relativeBinDir else dirname script)) p.
Proof. intros H. unfold resolveBinDir. unfold bind at 1, get at 1. now rewrite H. Qed.

Lemma main_throws (e : JsError) (p : Process) :
  resolveBinDir p = (Throw e, p) ->
  program import_default yargs_argv p
  = (Exit 1, logged p [AStr "Caught unexpected exception"; AErr e]).
Proof.
  intros H. unfold program, main, discover. unfold try_catch at 1.
  do 3 (unfold bind at 1). now rewrite H.
Qed.

(** ** The names of the files loaded *)

Lemma subCommandFilesIn_listing (dir : string) (entries : list string) (p : Process) :
  fs_readdir (fs p) dir = Ok entries ->
  subCommandFilesIn dir p
  = (Ret (map (fun name => path_join [dir; name]) (List.filter isSubCommandFile entries)), p).
Proof. intros H. unfold subCommandFilesIn. unfold_m. now rewrite H. Qed.

(** ** The registry *)

Lemma runnersOf_snoc (scs : list (SubCommand Builder)) (sc : SubCommand Builder) :
  runnersOf (scs ++ [sc]) = <[name sc := run sc]> (runnersOf scs).
Proof. unfold runnersOf. now rewrite foldl_app. Qed.

Lemma runnersOf_lookup (scs : list (SubCommand Builder)) (key : string) :
  runnersOf scs !! key = run <$> last (filter (fun sc => name sc = key) scs).
Proof.
  induction scs as [|sc scs IH] using rev_ind; [reflexivity |].
  rewrite runnersOf_snoc, filter_app, lookup_insert.
  destruct (decide (name sc = key)) as [E|E].
  - rewrite filter_cons_True by exact E. now rewrite filter_nil, last_snoc.
  - rewrite filter_cons_False by exact E.
    rewrite filter_nil, app_nil_r. exact IH.
Qed.

Lemma runnersOf_absent (scs : list (SubCommand Builder)) (key : string) :
  (forall sc, sc ∈ scs -> name sc <> key) -> runnersOf scs !! key = None.
Proof.
  induction scs as [|sc scs IH] using rev_ind; intros H; [reflexivity |].
  rewrite runnersOf_snoc, lookup_insert_ne.
  - apply IH. intros sc' Hin. apply H, elem_of_app. now left.
  - apply H, elem_of_app. right. now apply list_elem_of_singleton.
Qed.

(** ** Dispatch *)

Lemma dispatch_unknown (scs : list (SubCommand Builder)) (p p1 : Process)
      (args : Args) (tok : Token) (rest : list Token) :
  yargs_argv (commandsOf scs) p = (Ret args, p1) ->
  positional args = tok :: rest ->
  getRunner (runnersOf scs) tok = None ->
  dispatch yargs_argv scs p
  = (Exit 1, logged p1 [AStr (token_text tok +:+ ": Unsupported sub-command")]).
Proof.
  intros Hy Hp Hr. unfold dispatch, shift. unfold_m. rewrite Hy, Hp.
  cbn [mbind option_bind fmap option_fmap option_map default].
  now rewrite Hr.
Qed.

Lemma dispatch_runs (scs : list (SubCommand Builder)) (p p1 : Process)
      (args : Args) (tok : string) (rest : list Token) (runner : SubCommandRunner) :
  yargs_argv (commandsOf scs) p = (Ret args, p1) ->
  positional args = TString tok :: rest ->
  runnersOf scs !! tok = Some runner ->
  dispatch yargs_argv scs p
  = match runner (mkArgs rest (src args) (preferIndex args)) p1 with
    | (Ret code, p2) => (Exit code, p2)
    | (Throw err, p2) => (Exit 1, logged p2 [AErr err])
    | (Exit code, p2) => (Exit code, p2)
    end.
Proof.
  intros Hy Hp Hr. unfold dispatch, shift. unfold_m. rewrite Hy, Hp.
  cbn [mbind option_bind getRunner].
  unfold SubCommandRunner in *.
  rewrite Hr. now destruct (runner _ p1) as [[code|err|code] p2].
Qed.

Lemma exit_status_small (N : Z) :
  (0 <= N)%Z -> exit_status N = N <-> (N < 256)%Z.
Proof.
  intros HN. unfold exit_status. change 255%Z with (Z.ones 8).
  rewrite Z.land_ones by lia. change (2 ^ 8)%Z with 256%Z.
  rewrite Z.mod_small_iff by lia. lia.
Qed.

Lemma dispatch_exits (scs : list (SubCommand Builder)) (p : Process) :
  exists code p', dispatch yargs_argv scs p = (Exit code, p').
Proof.
  unfold dispatch. unfold_m.
  destruct (yargs_argv (commandsOf scs) p) as [[args|err|code] p1]; eauto.
  destruct (shift args) as [subCommand args'].
  destruct (subCommand ≫= _) as [runner|]; eauto.
  destruct (runner args' p1) as [[code|err|code] p2]; eauto.
Qed.

Lemma discover_unfold (dir : string) (entries : list string) (p : Process) :
  resolveBinDir p = (Ret dir, p) ->
  fs_readdir (fs p) dir = Ok entries ->
  discover import_default p
  = importAll import_default
      (map (fun name => path_join [dir; name]) (List.filter isSubCommandFile entries)) [] p.
Proof.
  intros Hd He. unfold discover. unfold bind at 1. rewrite Hd.
  unfold bind at 1. now rewrite (subCommandFilesIn_listing dir entries p He).
Qed.

Lemma program_exit (scs : list (SubCommand Builder)) (p0 p p' : Process) (code : Z) :
  discover import_default p0 = (Ret scs, p) ->
  dispatch yargs_argv scs p = (Exit code, p') ->
  program import_default yargs_argv p0 = (Exit code, p').
Proof.
  intros Hd Hx. unfold program, main. unfold try_catch, bind. now rewrite Hd, Hx.
Qed.

(** ** The claims on discovery and dispatch *)

(** C2, as the code has it.  Building the registry cannot fail and logs
    nothing; the runner found under a name is the one of the last
    sub-command discovered with that name, so a later sub-command replaces
    an earlier one of the same name. *)
Theorem registry_last_wins (subCommands : list (SubCommand Builder)) (key : string) :
  runnersOf subCommands !! key
  = run <$> last (filter (fun sc => name sc = key) subCommands).
Proof. apply runnersOf_lookup. Qed.

(** C6, as the code has it.  For a command registered under the string
    [yargs] hands over, the integer its runner resolves to is the code
    given to [process.exit]; the status read from the process is that
    integer when it is below 256 and not otherwise.  An exception of the
    runner is caught, logged with [console.error] and turned into status
    1.  A token [yargs] hands over as a number is looked up as a number:
    nothing is found, whatever is registered, and the process ends as for
    an unknown command.  Whatever happens, dispatch ends in [process.exit]
    and throws nothing, and its end is the end of the whole program. *)
Theorem runner_exit_status
    (subCommands : list (SubCommand Builder)) (p p1 : Process) (args : Args) :
  yargs_argv (commandsOf subCommands) p = (Ret args, p1) ->
  (forall tok rest runner p2,
      positional args = TString tok :: rest ->
      runnersOf subCommands !! tok = Some runner ->
      let args' := mkArgs rest (src args) (preferIndex args) in
      (forall N, (0 <= N)%Z -> runner args' p1 = (Ret N, p2) ->
         dispatch yargs_argv subCommands p = (Exit N, p2)
         /\ (exit_status N = N <-> (N < 256)%Z)
         /\ forall p0, discover import_default p0 = (Ret subCommands, p) ->
              program import_default yargs_argv p0 = (Exit N, p2))
      /\ (forall err, runner args' p1 = (Throw err, p2) ->
         dispatch yargs_argv subCommands p = (Exit 1, logged p2 [AErr err])
         /\ exit_status 1 = 1%Z
         /\ forall p0, discover import_default p0 = (Ret subCommands, p) ->
              program import_default yargs_argv p0 = (Exit 1, logged p2 [AErr err])))
  /\ (forall text rest,
        positional args = TNumber text :: rest ->
        dispatch yargs_argv subCommands p
        = (Exit 1, logged p1 [AStr (text +:+ ": Unsupported sub-command")]))
  /\ (exists code p', dispatch yargs_argv subCommands p = (Exit code, p')).
Proof.
  intros Hy. split; [|split].
  - intros tok rest runner p2 Hp Hr args'.
    pose proof (dispatch_runs subCommands p p1 args tok rest runner Hy Hp Hr) as Hd.
    fold args' in Hd. split.
    + intros N HN HN'. rewrite HN' in Hd. split; [exact Hd |].
      split; [now apply exit_status_small |].
      intros p0 H0. now apply program_exit with subCommands p.
    + intros err He. rewrite He in Hd. split; [exact Hd |].
      split; [reflexivity |].
      intros p0 H0. now apply program_exit with subCommands p.
  - intros text rest Hp.
    exact (dispatch_unknown subCommands p p1 args (TNumber text) rest Hy Hp eq_refl).
  - apply dispatch_exits.
Qed.

(** C7, as the code has it.  When [yargs] hands over a token under which
    nothing is registered, the line [<token>: Unsupported sub-command]
    goes to the error stream and the process exits with status 1.  The
    outcome does not depend on the runners (replacing them all changes
    nothing): none is called.  So it is for [frobnicate] when [build-dist]
    alone is registered. *)
Theorem unknown_command
    (subCommands : list (SubCommand Builder)) (p p1 : Process)
    (args : Args) (tok : Token) (rest : list Token) :
  yargs_argv (commandsOf subCommands) p = (Ret args, p1) ->
  positional args = tok :: rest ->
  (forall sc, sc ∈ subCommands -> TString (name sc) <> tok) ->
  dispatch yargs_argv subCommands p
  = (Exit 1, logged p1 [AStr (token_text tok +:+ ": Unsupported sub-command")])
  /\ Contains (token_text tok) (token_text tok +:+ ": Unsupported sub-command")
  /\ exit_status 1 = 1%Z
  /\ (forall others,
        map name others = map name subCommands ->
        commandsOf others = commandsOf subCommands ->
        dispatch yargs_argv others p = dispatch yargs_argv subCommands p)
  /\ (forall p0, discover import_default p0 = (Ret subCommands, p) ->
        program import_default yargs_argv p0
        = (Exit 1, logged p1 [AStr (token_text tok +:+ ": Unsupported sub-command")]))
  /\ (forall buildDist q q1 args1 rest1,
        name buildDist = "build-dist" ->
        yargs_argv (commandsOf [buildDist]) q = (Ret args1, q1) ->
        positional args1 = TString "frobnicate" :: rest1 ->
        dispatch yargs_argv [buildDist] q
        = (Exit 1, logged q1 [AStr "frobnicate: Unsupported sub-command"])).
Proof.
  intros Hy Hp Hn.
  assert (Habs : forall scs : list (SubCommand Builder),
             (forall sc, sc ∈ scs -> TString (name sc) <> tok) ->
             getRunner (runnersOf scs) tok = None).
  { intros scs H. destruct tok as [key|text]; [|reflexivity].
    cbn [getRunner]. apply runnersOf_absent. intros sc Hin Heq.
    apply (H sc Hin). now rewrite Heq. }
  assert (Hd : dispatch yargs_argv subCommands p
               = (Exit 1, logged p1 [AStr (token_text tok +:+ ": Unsupported sub-command")])).
  { apply dispatch_unknown with args rest; [exact Hy | exact Hp |]. now apply Habs. }
  split; [exact Hd |].
  split; [now exists "", ": Unsupported sub-command" |].
  split; [reflexivity |].
  split.
  { intros others Hnames Hcmds. rewrite Hd.
    apply dispatch_unknown with args rest; [now rewrite Hcmds | exact Hp |].
    apply Habs. intros sc Hin Heq.
    assert (Hin' : name sc ∈ map name subCommands).
    { rewrite <- Hnames. now apply list_elem_of_fmap_2. }
    apply list_elem_of_fmap in Hin' as [sc' [Heq' Hin']].
    apply (Hn sc' Hin'). now rewrite <- Heq'. }
  split.
  { intros p0 H0. now apply program_exit with subCommands p. }
  intros buildDist q q1 args1 rest1 Hname Hy1 Hp1.
  apply (dispatch_unknown [buildDist] q q1 args1 (TString "frobnicate") rest1 Hy1 Hp1).
  cbn [getRunner]. apply runnersOf_absent. intros sc Hin.
  apply list_elem_of_singleton in Hin as ->. rewrite Hname. discriminate.
Qed.

(** C9, as the code has it.  The directory searched is
    [<cwd>/node_modules/.bin] when [stat] finds a regular file at [koolie]
    there, or none at [koolie] and one at [koolie.cmd]; it is the directory
    of the host script, with no error, when no regular file is found at
    either name.  A failure of [stat] other than [ENOENT] on a probe that
    is reached is thrown again: no directory is chosen and the process
    exits with status 1. *)
Theorem module_search_directory (p : Process) (script : string) :
  nth_error (argv p) 1 = Some script ->
  let relativeBinDir := path_join [cwd p; "node_modules"; ".bin"] in
  let relativeMain := path_join [relativeBinDir; "koolie"] in
  let relativeMainCmd := path_join [relativeBinDir; "koolie.cmd"] in
  (IsFileAt p relativeMain \/ (NoFileAt p relativeMain /\ IsFileAt p relativeMainCmd) ->
     resolveBinDir p = (Ret relativeBinDir, p))
  /\ (NoFileAt p relativeMain -> NoFileAt p relativeMainCmd ->
     resolveBinDir p = (Ret (dirname script), p))
  /\ (forall e,
        StatFailsAt p relativeMain e
        \/ (NoFileAt p relativeMain /\ StatFailsAt p relativeMainCmd e) ->
        resolveBinDir p = (Throw e, p)
        /\ program import_default yargs_argv p
           = (Exit 1, logged p [AStr "Caught unexpected exception"; AErr e])).
Proof.
  intros Hs relativeBinDir relativeMain relativeMainCmd.
  rewrite (resolveBinDir_unfold p script Hs).
  fold relativeBinDir. subst relativeMain relativeMainCmd. cbv zeta.
  set (relativeMain := path_join [relativeBinDir; "koolie"]).
  set (relativeMainCmd := path_join [relativeBinDir; "koolie.cmd"]).
  split; [|split].
  - intros [H | [H1 H2]]; unfold bind.
    + now rewrite (fileExists_IsFileAt _ _ H).
    + now rewrite (fileExists_NoFileAt _ _ H1), (fileExists_IsFileAt _ _ H2).
  - intros H1 H2. unfold bind.
    now rewrite (fileExists_NoFileAt _ _ H1), (fileExists_NoFileAt _ _ H2).
  - intros e H.
    assert (Ht : (found <- fileExists relativeMain [] ;;
                  found <- (if found then ret true else fileExists relativeMainCmd []) ;;
                  ret (if found then relativeBinDir else dirname script)) p
                 = (Throw e, p)).
    { destruct H as [H | [H1 H2]]; unfold bind.
      - now rewrite (fileExists_StatFailsAt _ _ _ H).
      - now rewrite (fileExists_NoFileAt _ _ H1), (fileExists_StatFailsAt _ _ _ H2). }
    split; [exact Ht |].
    apply main_throws. now rewrite (resolveBinDir_unfold p script Hs).
Qed.


End KoolieFacts.

(* ================================================================== *)
(** * Sorting: facts *)
(* ================================================================== *)

Section SortFacts.
Context {A : Type}.
Variable cmp : A -> A -> Z.

Lemma sort_insert_perm (x : A) (l : list A) : Permutation (sort_insert cmp x l) (x :: l).
Proof.
  induction l as [|y l IH]; simpl; [reflexivity |].
  destruct (cmp x y <=? 0)%Z; [reflexivity |].
  rewrite IH. apply perm_swap.
Qed.

Lemma Array_sort_perm (l : list A) : Permutation (Array_sort cmp l) l.
Proof.
  induction l as [|x l IH]; simpl; [reflexivity |].
  rewrite sort_insert_perm. now rewrite IH.
Qed.

(** Stability: the elements of a class whose members compare equal keep
    the order they came in. *)
Lemma sort_insert_filter (cls : A -> bool) (x : A) (l : list A) :
  (forall a b, cls a = true -> cls b = true -> cmp_le cmp a b) ->
  List.filter cls (sort_insert cmp x l) = List.filter cls (x :: l).
Proof.
  intros Hcls. induction l as [|y l IH]; [reflexivity |].
  cbn [sort_insert]. destruct (cmp x y <=? 0)%Z eqn:E; [reflexivity |].
  apply Z.leb_gt in E.
  cbn [List.filter] in *. rewrite IH.
  destruct (cls x) eqn:Ex, (cls y) eqn:Ey; try reflexivity.
  specialize (Hcls x y Ex Ey). unfold cmp_le in Hcls. lia.
Qed.

Lemma Array_sort_stable (cls : A -> bool) (l : list A) :
  (forall a b, cls a = true -> cls b = true -> cmp_le cmp a b) ->
  List.filter cls (Array_sort cmp l) = List.filter cls l.
Proof.
  intros Hcls. induction l as [|x l IH]; [reflexivity |].
  cbn [Array_sort foldr]. fold (Array_sort cmp l).
  rewrite (sort_insert_filter cls x _ Hcls).
  cbn [List.filter]. now rewrite IH.
Qed.

Hypothesis cmp_total : forall x y, cmp_le cmp x y \/ cmp_le cmp y x.
Hypothesis cmp_trans : forall x y z, cmp_le cmp x y -> cmp_le cmp y z -> cmp_le cmp x z.

Lemma sort_insert_sorted (x : A) (l : list A) :
  StronglySorted (cmp_le cmp) l -> StronglySorted (cmp_le cmp) (sort_insert cmp x l).
Proof.
  induction 1 as [|y l Hs IH Hy]; cbn [sort_insert].
  - constructor; constructor.
  - destruct (cmp x y <=? 0)%Z eqn:E.
    + apply Z.leb_le in E. constructor; [now constructor |].
      constructor; [exact E |].
      eapply Forall_impl; [exact Hy |]. intros z Hz. now apply cmp_trans with y.
    + apply Z.leb_gt in E. constructor; [exact IH |].
      eapply Permutation_Forall; [symmetry; apply sort_insert_perm |].
      constructor; [|exact Hy].
      destruct (cmp_total x y) as [H|H]; [unfold cmp_le in H; lia | exact H].
Qed.

Lemma Array_sort_sorted (l : list A) : StronglySorted (cmp_le cmp) (Array_sort cmp l).
Proof.
  induction l as [|x l IH]; [constructor |].
  cbn [Array_sort foldr]. now apply sort_insert_sorted.
Qed.

End SortFacts.

Section ListFacts.
Context {A B : Type}.

Lemma filter_map_comm (f : A -> B) (keep : B -> bool) (l : list A) :
  List.filter keep (map f l) = map f (List.filter (fun a => keep (f a)) l).
Proof.
  induction l as [|a l IH]; [reflexivity |].
  cbn [map List.filter]. rewrite IH. now destruct (keep (f a)).
Qed.

Lemma filter_filter_comm (f g : A -> bool) (l : list A) :
  List.filter f (List.filter g l) = List.filter g (List.filter f l).
Proof.
  induction l as [|a l IH]; [reflexivity |].
  cbn [List.filter].
  destruct (f a) eqn:Ef, (g a) eqn:Eg; cbn [List.filter];
    rewrite ?Ef, ?Eg, IH; reflexivity.
Qed.

Lemma filter_sublist (f : A -> bool) (l : list A) : sublist (List.filter f l) l.
Proof.
  induction l as [|a l IH]; [constructor |].
  cbn [List.filter]. destruct (f a); now constructor.
Qed.

Lemma StronglySorted_filter (R : A -> A -> Prop) (f : A -> bool) (l : list A) :
  StronglySorted R l -> StronglySorted R (List.filter f l).
Proof.
  induction 1 as [|a l Hs IH Ha]; [constructor |].
  cbn [List.filter]. destruct (f a); [|exact IH].
  constructor; [exact IH |].
  apply Forall_forall. intros x Hx. apply list_elem_of_In, filter_In in Hx as [Hx _].
  rewrite Forall_forall in Ha. now apply Ha, list_elem_of_In.
Qed.

Lemma StronglySorted_lookup (R : A -> A -> Prop) (l : list A) (i j : nat) (a b : A) :
  StronglySorted R l -> i < j -> l !! i = Some a -> l !! j = Some b -> R a b.
Proof.
  intros Hs. revert i j. induction Hs as [|x l Hs IH Hx]; intros i j Hij Hi Hj.
  - discriminate.
  - destruct j as [|j]; [lia |]. destruct i as [|i].
    + injection Hi as ->. rewrite Forall_forall in Hx.
      apply Hx. now apply list_elem_of_lookup_2 with j.
    + apply (IH i j); [lia | exact Hi | exact Hj].
Qed.

End ListFacts.

(* ================================================================== *)
(** * Entry points: facts *)
(* ================================================================== *)

Section BuildDocsFacts.
Context {NP : NodePath} {GL : GlobLib} {RE : JsRegExp}.

(** ** The filter *)

Lemma find_test_Some (res : list RegExp) (relPath : string) :
  (exists re, List.find (fun regex => test regex relPath) res = Some re)
  <-> exists re, In re res /\ test re relPath = true.
Proof.
  split.
  - intros [re H]. apply find_some in H. eauto.
  - intros [re [Hin Ht]].
    destruct (List.find (fun regex => test regex relPath) res) as [re'|] eqn:E; [eauto |].
    pose proof (find_none _ _ E re Hin) as Hn. simpl in Hn. congruence.
Qed.

Lemma sourceFilter_spec (cwd : string) (inclusions exclusions : list string) (item : Item) :
  sourceFilter (Literal cwd) (map GlobToRegExp inclusions) (map GlobToRegExp exclusions)
               item = true
  <-> isFile (stats item) = true
      /\ Included inclusions exclusions (stripCwd cwd (path item)).
Proof.
  unfold sourceFilter, Included. cbn [replaceCwd].
  set (relPath := stripCwd cwd (path item)).
  destruct (isFile (stats item)); simpl; [|split; [discriminate | intros [[=] _]]].
  destruct (List.find _ (map GlobToRegExp inclusions)) as [re|] eqn:Ei.
  - assert (Hinc : exists glob, glob ∈ inclusions /\ test (GlobToRegExp glob) relPath = true).
    { apply find_some in Ei as [Hin Ht]. apply in_map_iff in Hin as [glob [<- Hin]].
      exists glob. split; [now apply list_elem_of_In | exact Ht]. }
    destruct (List.find _ (map GlobToRegExp exclusions)) as [re'|] eqn:Ee.
    + split; [discriminate |]. intros [_ [_ Hex]].
      apply find_some in Ee as [Hin Ht]. apply in_map_iff in Hin as [glob [<- Hin]].
      rewrite (Hex glob) in Ht; [discriminate | now apply list_elem_of_In].
    + split; [|reflexivity]. intros _. split; [reflexivity |]. split; [exact Hinc |].
      intros glob Hin. apply list_elem_of_In in Hin.
      pose proof (find_none _ _ Ee (GlobToRegExp glob) (in_map _ _ _ Hin)) as Hn.
      exact Hn.
  - split; [discriminate |]. intros [_ [[glob [Hin Ht]] _]].
    apply list_elem_of_In in Hin.
    pose proof (find_none _ _ Ei (GlobToRegExp glob) (in_map _ _ _ Hin)) as Hn.
    simpl in Hn. congruence.
Qed.

Lemma matchedFiles_files_only (cwd : string) (inclusions exclusions : list string)
      (items : list Item) :
  matchedFiles cwd inclusions exclusions items
  = matchedFiles cwd inclusions exclusions
      (List.filter (fun item => isFile (stats item)) items).
Proof.
  unfold matchedFiles. f_equal.
  induction items as [|item items IH]; [reflexivity |].
  cbn [List.filter]. destruct (isFile (stats item)) eqn:E.
  - cbn [List.filter]. now rewrite IH.
  - rewrite IH. unfold sourceFilter at 1. now rewrite E.
Qed.

(** ** What the functions return *)

Lemma new_cwdRegExp_plain (p : Process) :
  PlainCwd p -> new_cwdRegExp (cwd p) = Ok (Literal (cwd p)).
Proof. intros H. unfold new_cwdRegExp. cbv zeta. now rewrite H. Qed.

Lemma getSourceFiles_unfold (srcRoot : string) (inclusions exclusions : list string)
      (p : Process) :
  getSourceFiles srcRoot inclusions exclusions p
  = match new_cwdRegExp (cwd p) with
    | Err err => (Throw err, p)
    | Ok cwdRegExp =>
        match fs_klaw (fs p) srcRoot with
        | Err err => (Throw err, p)
        | Ok items =>
            (Ret (map (fun m => replaceCwd cwdRegExp (filename m))
                      (sortedMatches
                         (map path
                              (List.filter
                                 (sourceFilter cwdRegExp (map GlobToRegExp inclusions)
                                               (map GlobToRegExp exclusions))
                                 items)))), p)
        end
    end.
Proof.
  unfold getSourceFiles, findFiles, lift_result. unfold_m.
  destruct (new_cwdRegExp (cwd p)) as [cwdRegExp|err]; [|reflexivity].
  now destruct (fs_klaw (fs p) srcRoot).
Qed.

Lemma getSourceFiles_returns (srcRoot : string) (inclusions exclusions : list string)
      (items : list Item) (p : Process) :
  PlainCwd p ->
  fs_klaw (fs p) srcRoot = Ok items ->
  getSourceFiles srcRoot inclusions exclusions p
  = (Ret (map (relativePath (cwd p))
              (sortedMatches (matchedFiles (cwd p) inclusions exclusions items))), p).
Proof.
  intros Hplain H.
  now rewrite getSourceFiles_unfold, (new_cwdRegExp_plain p Hplain), H.
Qed.

Lemma dirExists_found (f : string) (st : Stats) (p : Process) :
  fs_stat (fs p) f = Ok st -> dirExists f [] p = (Ret (isDirectory st), p).
Proof. intros H. unfold dirExists, bind. now rewrite (exists_found f st p H). Qed.

Lemma getDefaultEntryPoints_returns (args : Args) (root : string)
      (items : list Item) (p : Process) :
  PlainCwd p ->
  SourceRoot args p root ->
  fs_klaw (fs p) root = Ok items ->
  getDefaultEntryPoints args p
  = (Ret (let srcFiles :=
            map (relativePath (cwd p))
                (sortedMatches (matchedFiles (cwd p) ["**/*.ts"] ["**/*.spec.ts"] items)) in
          if preferIndex args then preferIndexFilter srcFiles else srcFiles), p).
Proof.
  intros Hplain Hroot Hk. unfold getDefaultEntryPoints, SourceRoot in *.
  destruct (src args) as [s|].
  - subst s. unfold bind at 1. unfold ret at 1. unfold bind at 1.
    now rewrite (getSourceFiles_returns _ _ _ items p Hplain Hk).
  - destruct Hroot as [-> [st [Hst Hdir]]].
    unfold bind at 1. unfold bind at 1.
    rewrite (dirExists_found _ st p Hst), Hdir. unfold ret at 1. unfold bind at 1.
    now rewrite (getSourceFiles_returns _ _ _ items p Hplain Hk).
Qed.

(** ** The order *)

Lemma compareMatches_le (a b : Match) :
  cmp_le compareMatches a b
  <-> (isIndex a = false /\ isIndex b = true)
      \/ (isIndex a = isIndex b /\ (depth b <= depth a)%Z).
Proof.
  unfold cmp_le, compareMatches.
  destruct (isIndex a), (isIndex b); simpl; split; intros H;
    try (destruct H as [[? ?] | [? ?]]; try discriminate); try lia;
    try (left; split; reflexivity); try (right; split; [reflexivity | lia]).
Qed.

Lemma compareMatches_total (a b : Match) :
  cmp_le compareMatches a b \/ cmp_le compareMatches b a.
Proof.
  rewrite !compareMatches_le.
  destruct (isIndex a), (isIndex b); try (left; left; split; reflexivity);
    try (right; left; split; reflexivity);
    destruct (Z.le_ge_cases (depth b) (depth a));
    solve [left; right; split; [reflexivity | lia]
          | right; right; split; [reflexivity | lia]].
Qed.

Lemma compareMatches_trans (a b c : Match) :
  cmp_le compareMatches a b -> cmp_le compareMatches b c -> cmp_le compareMatches a c.
Proof.
  rewrite !compareMatches_le.
  intros [[Ha Hb] | [Hab Hd1]] [[Hb' Hc] | [Hbc Hd2]]; try congruence.
  - left. split; [exact Ha | congruence].
  - left. split; [congruence | exact Hc].
  - right. split; [congruence | lia].
Qed.

Lemma inClass_equal (idx : bool) (d : Z) (a b : Match) :
  inClass idx d a = true -> inClass idx d b = true -> cmp_le compareMatches a b.
Proof.
  unfold inClass. intros Ha Hb.
  apply andb_true_iff in Ha as [Ha1 Ha2], Hb as [Hb1 Hb2].
  apply Bool.eqb_prop in Ha1, Hb1. apply Z.eqb_eq in Ha2, Hb2.
  apply compareMatches_le. right. split; [congruence | lia].
Qed.

Lemma sortedMatches_sorted (fileList : list string) :
  StronglySorted (cmp_le compareMatches) (sortedMatches fileList).
Proof.
  apply Array_sort_sorted; [apply compareMatches_total | apply compareMatches_trans].
Qed.

Lemma sortedMatches_stable (idx : bool) (d : Z) (fileList : list string) :
  List.filter (inClass idx d) (sortedMatches fileList)
  = List.filter (inClass idx d) (map toMatch fileList).
Proof. apply Array_sort_stable, inClass_equal. Qed.

Lemma sortedMatches_perm (fileList : list string) :
  Permutation (sortedMatches fileList) (map toMatch fileList).
Proof. apply Array_sort_perm. Qed.

(** ** Preferring the index *)

Lemma dirHasIndexOf_from (acc : gmap string bool) (srcFiles : list string) (d : string) :
  truthy (foldl (fun (dirHasIndex : gmap string bool) srcFile =>
                   if String.eqb (basename srcFile) "index.ts"
                   then <[dirname srcFile := true]> dirHasIndex
                   else dirHasIndex) acc srcFiles !! d)
  = truthy (acc !! d) || existsb (fun f => inDir d f && isIndexFile f) srcFiles.
Proof.
  revert acc. induction srcFiles as [|f l IH]; intros acc; cbn [foldl existsb].
  - now rewrite orb_false_r.
  - rewrite IH.
    change (isIndexFile f) with (String.eqb (basename f) "index.ts").
    change (inDir d f) with (String.eqb (dirname f) d).
    destruct (String.eqb (basename f) "index.ts").
    + rewrite lookup_insert. destruct (decide (dirname f = d)) as [E|E].
      * apply String.eqb_eq in E as ->. simpl. now rewrite orb_true_r.
      * apply String.eqb_neq in E as ->. reflexivity.
    + now rewrite andb_false_r.
Qed.

Lemma dirHasIndexOf_spec (srcFiles : list string) (d : string) :
  truthy (dirHasIndexOf srcFiles !! d)
  = existsb (fun f => inDir d f && isIndexFile f) srcFiles.
Proof. unfold dirHasIndexOf. now rewrite dirHasIndexOf_from. Qed.

Lemma filter_both {A} (f g : A -> bool) (l : list A) :
  List.filter f (List.filter g l) = List.filter (fun x => f x && g x) l.
Proof.
  induction l as [|a l IH]; [reflexivity |].
  cbn [List.filter]. destruct (g a) eqn:Eg; cbn [List.filter]; rewrite IH;
    destruct (f a); reflexivity.
Qed.

Lemma preferIndexFilter_dir (srcFiles : list string) (d : string) :
  List.filter (inDir d) (preferIndexFilter srcFiles)
  = if existsb (fun f => inDir d f && isIndexFile f) srcFiles
    then List.filter (fun f => inDir d f && isIndexFile f) srcFiles
    else List.filter (inDir d) srcFiles.
Proof.
  unfold preferIndexFilter. rewrite filter_both.
  destruct (existsb _ srcFiles) eqn:E; apply filter_ext_in; intros f _.
  - destruct (inDir d f) eqn:Ed; [|reflexivity]. simpl.
    apply String.eqb_eq in Ed. rewrite Ed, dirHasIndexOf_spec, E.
    fold (isIndexFile f). now rewrite orb_false_r.
  - destruct (inDir d f) eqn:Ed; [|reflexivity]. simpl.
    apply String.eqb_eq in Ed. rewrite Ed, dirHasIndexOf_spec, E.
    now rewrite orb_true_r.
Qed.

Lemma has_index_existsb (srcFiles : list string) (d : string) :
  existsb (fun f => inDir d f && isIndexFile f) srcFiles = true
  <-> exists f, f ∈ srcFiles /\ dirname f = d /\ basename f = "index.ts".
Proof.
  rewrite existsb_exists. unfold inDir, isIndexFile. split.
  - intros [f [Hin H]]. apply andb_true_iff in H as [H1 H2].
    apply String.eqb_eq in H1, H2. exists f. now rewrite list_elem_of_In.
  - intros [f [Hin [H1 H2]]]. exists f. rewrite <- list_elem_of_In.
    split; [exact Hin |]. apply andb_true_iff. now rewrite !String.eqb_eq.
Qed.

(** ** The claims on the entry points *)

Lemma sorted_EntryOrder (ms : list Match) :
  StronglySorted (cmp_le compareMatches) ms -> EntryOrder ms.
Proof.
  intros Hsorted i j a b Hij Hi Hj.
  pose proof (StronglySorted_lookup _ _ i j a b Hsorted Hij Hi Hj) as H.
  apply compareMatches_le in H. destruct H as [[Ha Hb] | [Hab Hd]].
  - split; [congruence | congruence].
  - split; [congruence | intros _; exact Hd].
Qed.

Lemma filter_all {A} (l : list A) : List.filter (fun _ => true) l = l.
Proof.
  induction l as [|a l IH]; [reflexivity |]. cbn [List.filter]. now rewrite IH.
Qed.

(** The order on the records: what the sort and the filter give. *)
Lemma sorted_records (args : Args) (root : string) (items : list Item) (p : Process) :
  PlainCwd p ->
  SourceRoot args p root ->
  fs_klaw (fs p) root = Ok items ->
  (forall inclusions exclusions,
      let discovered := map toMatch (matchedFiles (cwd p) inclusions exclusions items) in
      exists ms : list Match,
        getSourceFiles root inclusions exclusions p
        = (Ret (map (relativePath (cwd p)) ms), p)
        /\ EntryOrder ms
        /\ (forall idx d, List.filter (inClass idx d) ms
                          = List.filter (inClass idx d) discovered)
        /\ Permutation ms discovered)
  /\ (let discovered :=
        map toMatch (matchedFiles (cwd p) ["**/*.ts"] ["**/*.spec.ts"] items) in
      exists ms : list Match,
        getDefaultEntryPoints args p = (Ret (map (relativePath (cwd p)) ms), p)
        /\ EntryOrder ms
        /\ (forall idx d, sublist (List.filter (inClass idx d) ms)
                                  (List.filter (inClass idx d) discovered))
        /\ (preferIndex args = false -> Permutation ms discovered)
        /\ sublist ms (sortedMatches (matchedFiles (cwd p) ["**/*.ts"] ["**/*.spec.ts"]
                                                   items))).
Proof.
  intros Hplain Hroot Hk. split.
  { intros inclusions exclusions discovered.
    exists (sortedMatches (matchedFiles (cwd p) inclusions exclusions items)).
    split; [exact (getSourceFiles_returns _ _ _ items p Hplain Hk) |].
    split; [apply sorted_EntryOrder, sortedMatches_sorted |].
    split; [intros idx d; apply sortedMatches_stable | apply sortedMatches_perm]. }
  intros discovered.
  rewrite (getDefaultEntryPoints_returns args root items p Hplain Hroot Hk). cbv zeta.
  set (fileList := matchedFiles (cwd p) ["**/*.ts"] ["**/*.spec.ts"] items).
  set (sorted := sortedMatches fileList).
  set (keep := fun m : Match =>
         if preferIndex args
         then String.eqb (basename (relativePath (cwd p) m)) "index.ts"
              || negb (truthy (dirHasIndexOf (map (relativePath (cwd p)) sorted)
                               !! dirname (relativePath (cwd p) m)))
         else true).
  exists (List.filter keep sorted).
  split; [|split; [|split; [|split]]].
  - f_equal. f_equal. unfold keep. destruct (preferIndex args).
    + unfold preferIndexFilter. now rewrite filter_map_comm.
    + now rewrite filter_all.
  - apply sorted_EntryOrder, StronglySorted_filter, sortedMatches_sorted.
  - intros idx d. rewrite filter_filter_comm. unfold sorted.
    rewrite sortedMatches_stable. apply filter_sublist.
  - intros Hoff. unfold keep. rewrite Hoff, filter_all. apply sortedMatches_perm.
  - apply filter_sublist.
Qed.

(** ** From the records to the file names *)

Lemma split_from_length (c : ascii) (cur s : string) :
  List.length (Str.split_from c cur s) = S (Str.count c s).
Proof.
  revert cur. induction s as [|b s IH]; intros cur; [reflexivity |].
  cbn [Str.split_from Str.count]. destruct (Ascii.eqb b c).
  - cbn [List.length]. now rewrite IH.
  - now rewrite IH.
Qed.

Lemma toMatch_keys (file : string) :
  filename (toMatch file) = file
  /\ isIndex (toMatch file) = isIndexPath file
  /\ depth (toMatch file) = Z.of_nat (S (separators file)).
Proof.
  split; [reflexivity |]. split; [reflexivity |].
  unfold toMatch, separators, Str.split. cbn [depth].
  now rewrite split_from_length.
Qed.

Lemma inClass_toMatch (idx : bool) (d : nat) (file : string) :
  inClass idx (Z.of_nat (S d)) (toMatch file) = inPathClass idx d file.
Proof.
  unfold inClass, inPathClass.
  destruct (toMatch_keys file) as [_ [-> ->]]. f_equal.
  destruct (Nat.eqb_spec (separators file) d) as [-> | Hne].
  - apply Z.eqb_refl.
  - apply Z.eqb_neq. lia.
Qed.

Lemma filter_class_files (idx : bool) (d : nat) (files : list string) :
  map filename (List.filter (inClass idx (Z.of_nat (S d))) (map toMatch files))
  = List.filter (inPathClass idx d) files.
Proof.
  induction files as [|file files IH]; [reflexivity |].
  cbn [map List.filter]. rewrite inClass_toMatch.
  destruct (inPathClass idx d file); cbn [map]; now rewrite IH.
Qed.

Lemma record_is_image (ms : list Match) (files : list string) :
  (forall m, In m ms -> In m (map toMatch files)) ->
  forall m, In m ms -> m = toMatch (filename m).
Proof.
  intros H m Hin. apply H in Hin.
  apply in_map_iff in Hin as [file [<- _]]. reflexivity.
Qed.

Lemma records_of_files (ms : list Match) :
  (forall m, In m ms -> m = toMatch (filename m)) ->
  ms = map toMatch (map filename ms).
Proof.
  intros Hall. induction ms as [|m ms IH]; [reflexivity |].
  cbn [map]. rewrite <- (Hall m) by now left.
  f_equal. apply IH. intros m' Hin. apply Hall. now right.
Qed.

Lemma PathOrder_of_records (ms : list Match) :
  (forall m, In m ms -> m = toMatch (filename m)) ->
  EntryOrder ms -> PathOrder (map filename ms).
Proof.
  intros Him Hord i j f g Hij Hi Hj.
  rewrite list_lookup_fmap in Hi, Hj.
  destruct (ms !! i) as [a|] eqn:Ea; [|discriminate].
  destruct (ms !! j) as [b|] eqn:Eb; [|discriminate].
  injection Hi as <-. injection Hj as <-.
  assert (Ha : a = toMatch (filename a)).
  { apply Him, list_elem_of_In. now apply list_elem_of_lookup_2 with i. }
  assert (Hb : b = toMatch (filename b)).
  { apply Him, list_elem_of_In. now apply list_elem_of_lookup_2 with j. }
  destruct (Hord i j a b Hij Ea Eb) as [H1 H2].
  destruct (toMatch_keys (filename a)) as [_ [Hia Hda]].
  destruct (toMatch_keys (filename b)) as [_ [Hib Hdb]].
  rewrite <- Ha in Hia, Hda. rewrite <- Hb in Hib, Hdb.
  rewrite <- Hia, <- Hib. split; [exact H1 |].
  intros Heq. specialize (H2 Heq). lia.
Qed.



(** The general part of C5: a file of the walk is matched exactly when an
    inclusion matches its path relative to the working directory and no
    exclusion does; nothing else is returned; no inclusion, no match. *)
Lemma getSourceFiles_matches
      (srcRoot : string) (inclusions exclusions : list string)
      (items : list Item) (p : Process) :
  PlainCwd p ->
  fs_klaw (fs p) srcRoot = Ok items ->
  exists matched,
    getSourceFiles srcRoot inclusions exclusions p = (Ret matched, p)
    /\ (forall item, item ∈ items -> isFile (stats item) = true ->
          (stripCwd (cwd p) (path item) ∈ matched
           <-> Included inclusions exclusions (stripCwd (cwd p) (path item))))
    /\ (forall relPath, relPath ∈ matched ->
          exists item, item ∈ items /\ isFile (stats item) = true
                       /\ relPath = stripCwd (cwd p) (path item))
    /\ (inclusions = [] -> matched = []).
Proof.
  intros Hplain Hk.
  set (fileList := matchedFiles (cwd p) inclusions exclusions items).
  exists (map (relativePath (cwd p)) (sortedMatches fileList)).
  split; [exact (getSourceFiles_returns _ _ _ items p Hplain Hk) |].
  assert (Hmem : forall relPath,
             relPath ∈ map (relativePath (cwd p)) (sortedMatches fileList)
             <-> exists item, item ∈ items
                   /\ (isFile (stats item) = true
                       /\ Included inclusions exclusions (stripCwd (cwd p) (path item)))
                   /\ relPath = stripCwd (cwd p) (path item)).
  { intros relPath. rewrite list_elem_of_In, in_map_iff. split.
    - intros [m [<- Hin]].
      apply (Permutation_in _ (sortedMatches_perm fileList)) in Hin.
      apply in_map_iff in Hin as [f [<- Hin]].
      unfold fileList, matchedFiles in Hin.
      apply in_map_iff in Hin as [item [<- Hin]].
      apply filter_In in Hin as [Hin Hf]. apply sourceFilter_spec in Hf.
      exists item. split; [now apply list_elem_of_In |]. now split.
    - intros [item [Hin [Hf ->]]]. exists (toMatch (path item)). split; [reflexivity |].
      apply (Permutation_in _ (Permutation_sym (sortedMatches_perm fileList))).
      apply in_map. unfold fileList, matchedFiles. apply in_map.
      apply filter_In. split; [now apply list_elem_of_In |].
      now apply sourceFilter_spec. }
  split; [|split].
  - intros item Hin Hfile. rewrite Hmem. split.
    + intros [item' [_ [[_ Hinc] Heq]]]. now rewrite Heq.
    + intros Hinc. exists item. split; [exact Hin |]. split; [|reflexivity].
      split; [exact Hfile | exact Hinc].
  - intros relPath Hin. apply Hmem in Hin as [item [Hin [[Hf _] Heq]]]. eauto.
  - intros ->. destruct (map _ _) as [|relPath l] eqn:E; [reflexivity |].
    assert (Hin : relPath ∈ relPath :: l) by now left.
    apply Hmem in Hin as [item [_ [[_ [[glob [Hg _]] _]] _]]].
    now apply elem_of_nil in Hg.
Qed.

End BuildDocsFacts.

Section Permutations.
Context {A : Type}.

Lemma Permutation_two (l : list A) (a b : A) :
  Permutation l [a; b] -> l = [a; b] \/ l = [b; a].
Proof. intros H. symmetry in H. now apply Permutation_length_2_inv in H. Qed.

Lemma Permutation_three (l : list A) (a b c : A) :
  Permutation l [a; b; c] ->
  l = [a; b; c] \/ l = [a; c; b] \/ l = [b; a; c]
  \/ l = [b; c; a] \/ l = [c; a; b] \/ l = [c; b; a].
Proof.
  intros H. symmetry in H.
  apply Permutation_cons_inv_l in H as [k1 [k2 [-> H]]].
  apply Permutation_length_2_inv in H.
  destruct k1 as [|x [|y [|z k1]]]; simpl in H;
    destruct H as [H|H]; try discriminate; simplify_eq; simpl; tauto.
Qed.

End Permutations.

(* ================================================================== *)
(** * The scenarios of the specification *)
(* ================================================================== *)

Section ScenarioFacts.
Import Posix GlobDefault Engine Scenario.

(** The pattern [**/*.ts] is [^.*\/.*\.ts$]: it asks for a separator, so a
    path with none (a file of the working directory itself) is not
    matched. *)
Lemma ts_glob_needs_separator :
  test (GlobToRegExp "**/*.ts") "src/x.ts" = true
  /\ test (GlobToRegExp "**/*.ts") "x.ts" = false.
Proof. split; reflexivity. Qed.

Lemma proj_is_plain (p : Process) : cwd p = "/proj" -> PlainCwd p.
Proof. intros H. unfold PlainCwd. now rewrite H. Qed.

(** C1 fails: with [preferIndex], [a/b/widget.ts] is not returned, its
    directory has an [index.ts].  Dropping the exclusions changes
    nothing. *)
Lemma widget_is_dropped :
  getDefaultEntryPoints (mkArgs [] (Some "a") true) tree_process
  = (Ret ["a/b/index.ts"; "a/index.ts"], tree_process)
  /\ (srcFiles <- getSourceFiles "a" ["**/*.ts"] [] ;; ret (preferIndexFilter srcFiles))
       tree_process
     = (Ret ["a/b/index.ts"; "a/index.ts"], tree_process)
  /\ fst (getDefaultEntryPoints (mkArgs [] (Some "a") true) tree_process)
     <> Ret ["a/b/widget.ts"; "a/b/index.ts"; "a/index.ts"].
Proof.
  split; [vm_compute; reflexivity |].
  split; [vm_compute; reflexivity |].
  vm_compute. discriminate.
Qed.

(** C1, as the code has it.  Whatever the order of the walk, the tree
    [a/b/index.ts], [a/b/widget.ts], [a/index.ts] gives
    [a/b/index.ts; a/index.ts] with [preferIndex], and
    [a/b/widget.ts; a/b/index.ts; a/index.ts] without it, which is also
    what [getSourceFiles] returns for [**/*.ts] and no exclusion. *)
Theorem index_scenario (p : Process) (items : list Item) (tokens : list Token) :
  cwd p = "/proj" ->
  fs_klaw (fs p) "a" = Ok items ->
  Permutation (List.filter (fun item => isFile (stats item)) items) tree_files ->
  getDefaultEntryPoints (mkArgs tokens (Some "a") true) p
  = (Ret ["a/b/index.ts"; "a/index.ts"], p)
  /\ getDefaultEntryPoints (mkArgs tokens (Some "a") false) p
     = (Ret ["a/b/widget.ts"; "a/b/index.ts"; "a/index.ts"], p)
  /\ getSourceFiles "a" ["**/*.ts"] [] p
     = (Ret ["a/b/widget.ts"; "a/b/index.ts"; "a/index.ts"], p).
Proof.
  intros Hcwd Hk Hperm.
  pose proof (proj_is_plain p Hcwd) as Hplain.
  rewrite (getDefaultEntryPoints_returns (mkArgs tokens (Some "a") true) "a" items p
             Hplain eq_refl Hk).
  rewrite (getDefaultEntryPoints_returns (mkArgs tokens (Some "a") false) "a" items p
             Hplain eq_refl Hk).
  rewrite (getSourceFiles_returns "a" ["**/*.ts"] [] items p Hplain Hk).
  cbv zeta. cbn [preferIndex].
  rewrite !(matchedFiles_files_only (cwd p) _ _ items), Hcwd.
  apply Permutation_three in Hperm.
  destruct Hperm as [-> | [-> | [-> | [-> | [-> | ->]]]]];
    (split; [|split]); f_equal; vm_compute; reflexivity.
Qed.

Lemma tree_entry_points :
  cwd tree_process = "/proj"
  /\ getDefaultEntryPoints (mkArgs [] (Some "a") false) tree_process
     = (Ret ["a/b/widget.ts"; "a/b/index.ts"; "a/index.ts"], tree_process)
  /\ getDefaultEntryPoints (mkArgs [] (Some "a") true) tree_process
     = (Ret ["a/b/index.ts"; "a/index.ts"], tree_process).
Proof. repeat split; vm_compute; reflexivity. Qed.

Lemma index_scenario_witness :
  cwd tree_process = "/proj"
  /\ getDefaultEntryPoints (mkArgs [] (Some "a") true) tree_process
     = (Ret ["a/b/index.ts"; "a/index.ts"], tree_process).
Proof.
  split; [reflexivity |].
  apply (index_scenario tree_process tree_walk []);
    [reflexivity | reflexivity | apply Permutation_refl].
Defined.

(** C5 fails: [x.ts] and [x.spec.ts] in the working directory itself have
    the relative paths [x.ts] and [x.spec.ts], and [**/*.ts] asks for a
    separator: nothing is matched. *)
Lemma working_directory_unmatched :
  fs_klaw (fs flat_process) "."
  = Ok [directory "/proj"; plain_file "/proj/x.ts"; plain_file "/proj/x.spec.ts"]
  /\ stripCwd (cwd flat_process) "/proj/x.ts" = "x.ts"
  /\ getSourceFiles "." ["**/*.ts"] ["**/*.spec.ts"] flat_process = (Ret [], flat_process).
Proof. repeat split; vm_compute; reflexivity. Qed.

(** C5, as the code has it.  In a working directory without characters
    special to regular expressions, a file of the walk is matched exactly
    when an inclusion matches its path without the leading working
    directory and no exclusion does, and nothing else is returned; with no
    inclusion nothing is matched.  A source root [src] of the working
    directory holding [x.ts] and [x.spec.ts], walked in any order, gives
    [src/x.ts] alone for [**/*.ts] without [**/*.spec.ts]. *)
Theorem inclusion_exclusion :
  (forall (NP : NodePath) (GL : GlobLib) (RE : JsRegExp) (srcRoot : string)
          (inclusions exclusions : list string) (items : list Item) (p : Process),
      PlainCwd (NP:=NP) p ->
      fs_klaw (fs p) srcRoot = Ok items ->
      exists matched,
        getSourceFiles (NP:=NP) (GL:=GL) (RE:=RE) srcRoot inclusions exclusions p
        = (Ret matched, p)
        /\ (forall item, item ∈ items -> isFile (stats item) = true ->
              (stripCwd (NP:=NP) (cwd p) (path item) ∈ matched
               <-> Included (GL:=GL) inclusions exclusions
                     (stripCwd (NP:=NP) (cwd p) (path item))))
        /\ (forall relPath, relPath ∈ matched ->
              exists item, item ∈ items /\ isFile (stats item) = true
                           /\ relPath = stripCwd (NP:=NP) (cwd p) (path item))
        /\ (inclusions = [] -> matched = []))
  /\ (forall (RE : JsRegExp) (p : Process) (items : list Item),
        cwd p = "/proj" ->
        fs_klaw (fs p) "src" = Ok items ->
        Permutation (List.filter (fun item => isFile (stats item)) items) spec_files ->
        getSourceFiles (RE:=RE) "src" ["**/*.ts"] ["**/*.spec.ts"] p
        = (Ret ["src/x.ts"], p)).
Proof.
  split.
  - intros NP GL RE srcRoot inclusions exclusions items p Hplain Hk.
    exact (getSourceFiles_matches srcRoot inclusions exclusions items p Hplain Hk).
  - intros RE p items Hcwd Hk Hperm.
    pose proof (proj_is_plain p Hcwd) as Hplain.
    rewrite (getSourceFiles_returns "src" _ _ items p Hplain Hk).
    rewrite (matchedFiles_files_only (cwd p) _ _ items), Hcwd.
    apply Permutation_two in Hperm.
    destruct Hperm as [-> | ->]; f_equal; vm_compute; reflexivity.
Qed.

Lemma inclusion_exclusion_witness :
  getSourceFiles "src" ["**/*.ts"] ["**/*.spec.ts"] spec_process
  = (Ret ["src/x.ts"], spec_process)
  /\ getSourceFiles "src" [] ["**/*.spec.ts"] spec_process = (Ret [], spec_process).
Proof.
  split.
  - apply (proj2 inclusion_exclusion engine spec_process
                 (directory "/proj/src" :: spec_files));
      [reflexivity | reflexivity | apply Permutation_refl].
  - destruct (proj1 inclusion_exclusion posix glob_default engine "src" []
                ["**/*.spec.ts"] (directory "/proj/src" :: spec_files) spec_process
                (proj_is_plain spec_process eq_refl) eq_refl)
      as [matched [Hret [_ [_ Hnil]]]].
    rewrite Hret. now rewrite (Hnil eq_refl).
Defined.




(** C2 fails: of two sub-commands named [build-dist], the second is the
    one registered and run; nothing is logged, nothing fails. *)
Lemma duplicate_name_overwrites :
  runnersOf [first_build; second_build] !! "build-dist" = Some (run second_build)
  /\ run second_build (mkArgs [] None true) tree_process = (Ret 7%Z, tree_process)
  /\ run first_build (mkArgs [] None true) tree_process = (Ret 0%Z, tree_process)
  /\ dispatch (parsed ["build-dist"]) [first_build; second_build] tree_process
     = (Exit 7, tree_process).
Proof.
  assert (Hl : runnersOf [first_build; second_build] !! "build-dist"
               = Some (run second_build)).
  { rewrite runnersOf_lookup. reflexivity. }
  split; [exact Hl |]. split; [reflexivity |]. split; [reflexivity |].
  rewrite (dispatch_runs unit (parsed ["build-dist"]) [first_build; second_build]
             tree_process tree_process (mkArgs [TString "build-dist"] None true)
             "build-dist" [] (run second_build) eq_refl eq_refl Hl).
  reflexivity.
Qed.

(** C9 fails: where [node_modules] is a regular file neither launcher is
    found, and yet the probe throws and the process exits with status 1
    instead of searching the directory of the script. *)
Lemma search_directory_stat_error :
  ~ IsFileAt notdir_process "/proj/node_modules/.bin/koolie"
  /\ ~ IsFileAt notdir_process "/proj/node_modules/.bin/koolie.cmd"
  /\ resolveBinDir notdir_process = (Throw enotdir, notdir_process)
  /\ program no_module (parsed []) notdir_process
     = (Exit 1, logged notdir_process [AStr "Caught unexpected exception"; AErr enotdir]).
Proof.
  split; [intros [st [H _]]; vm_compute in H; discriminate |].
  split; [intros [st [H _]]; vm_compute in H; discriminate |].
  split; vm_compute; reflexivity.
Qed.

(** C6 fails: a runner that resolves to 256 ends the process with the
    code 256, and the status read from the process is 0; and the command
    registered as [7] is not run when asked for, the token comes as a
    number. *)
Lemma status_256_reads_0 :
  dispatch (parsed ["build-dist"]) [exiting "build-dist" 256] tree_process
  = (Exit 256, tree_process)
  /\ exit_status 256 = 0%Z
  /\ runnersOf [exiting "7" 0] !! "7" = Some (run (exiting "7" 0))
  /\ dispatch (parsed_as [TNumber "7"]) [exiting "7" 0] tree_process
     = (Exit 1, logged tree_process [AStr "7: Unsupported sub-command"]).
Proof. repeat split; vm_compute; reflexivity. Qed.

Lemma runner_exit_status_witness :
  dispatch (parsed ["build-dist"; "--dest"; "out"]) [exiting "build-dist" 3] tree_process
  = (Exit 3, tree_process)
  /\ exit_status 3 = 3%Z.
Proof.
  destruct (proj1 (runner_exit_status unit no_module
                     (parsed ["build-dist"; "--dest"; "out"])
                     [exiting "build-dist" 3] tree_process tree_process
                     (mkArgs (map TString ["build-dist"; "--dest"; "out"]) None true)
                     eq_refl)
                  "build-dist" (map TString ["--dest"; "out"])
                  (run (exiting "build-dist" 3)) tree_process eq_refl eq_refl)
    as [Hret _].
  destruct (Hret 3%Z) as [Hd [Hs _]]; [lia | reflexivity |].
  split; [exact Hd |]. apply Hs. lia.
Defined.

(** C7 fails: [build-dst] is no registered command, and with
    [recommendCommands] the parser answers it itself, beside the
    registered [build-dist]: the error stream names the command meant, not
    the command given. *)
Lemma near_miss_is_not_named :
  nth_error (argv typo_process) 2 = Some "build-dst"
  /\ (forall sc, sc ∈ [exiting "build-dist" 0] -> name sc <> "build-dst")
  /\ dispatch (recommending near_build_dist) [exiting "build-dist" 0] typo_process
     = (Exit 1, logged typo_process [AStr "Did you mean build-dist?"])
  /\ ~ Contains "build-dst" "Did you mean build-dist?".
Proof.
  split; [reflexivity |]. split.
  { intros sc Hin. apply list_elem_of_singleton in Hin as ->. discriminate. }
  split; [vm_compute; reflexivity |].
  intros H. apply includes_complete in H. vm_compute in H. discriminate.
Qed.

Lemma unknown_command_witness :
  dispatch (parsed ["frobnicate"]) [exiting "build-dist" 0] tree_process
  = (Exit 1, logged tree_process [AStr "frobnicate: Unsupported sub-command"])
  /\ Contains "frobnicate" "frobnicate: Unsupported sub-command".
Proof.
  assert (Hn : forall sc, sc ∈ [exiting "build-dist" 0] ->
                          TString (name sc) <> TString "frobnicate").
  { intros sc Hin. apply list_elem_of_singleton in Hin as ->. discriminate. }
  destruct (unknown_command unit no_module (parsed ["frobnicate"])
              [exiting "build-dist" 0] tree_process tree_process
              (mkArgs [TString "frobnicate"] None true) (TString "frobnicate") []
              eq_refl eq_refl Hn)
    as [Hd [Hc _]].
  split; [exact Hd | exact Hc].
Defined.



Lemma module_search_directory_witness :
  nth_error (argv windows_process) 1 = Some "/opt/koolie/dist/cli/koolie.js"
  /\ resolveBinDir windows_process = (Ret "/proj/node_modules/.bin", windows_process)
  /\ resolveBinDir tree_process = (Ret "/opt/koolie/dist/cli", tree_process).
Proof.
  split; [reflexivity |]. split.
  - exact (proj1 (module_search_directory unit no_module (parsed [])
                    windows_process "/opt/koolie/dist/cli/koolie.js" eq_refl)
                 (or_intror
                    (conj (or_intror (ex_intro _ enoent (conj eq_refl eq_refl)))
                          (ex_intro _ regular (conj eq_refl eq_refl))))).
  - exact (proj1 (proj2 (module_search_directory unit no_module (parsed [])
                           tree_process "/opt/koolie/dist/cli/koolie.js" eq_refl))
                 (or_intror (ex_intro _ enoent (conj eq_refl eq_refl)))
                 (or_intror (ex_intro _ enoent (conj eq_refl eq_refl)))).
Defined.


(** The whole program on the project with a wrapped sub-command: the
    directory is the local one, the wrapper leads to the module, and the
    status of its runner ends the process; an unknown name ends it with 1. *)
Lemma wrapped_project_runs :
  program windows_loader (parsed ["foo"]) windows_process = (Exit 3, windows_process)
  /\ program windows_loader (parsed ["frobnicate"]) windows_process
     = (Exit 1, logged windows_process [AStr "frobnicate: Unsupported sub-command"]).
Proof. split; vm_compute; reflexivity. Qed.

(** [depth] counts the pieces of the directory split at the separator: the
    pieces of an absolute directory start with an empty one, and the root
    itself has two. *)
Lemma depth_of_walked_files :
  depth (toMatch "/proj/a/b/index.ts") = 4%Z
  /\ depth (toMatch "/proj/a/index.ts") = 3%Z
  /\ depth (toMatch "/a/x.ts") = 2%Z
  /\ depth (toMatch "/x.ts") = 2%Z.
Proof. repeat split; reflexivity. Qed.

End ScenarioFacts.

(* ================================================================== *)
(** * [Utils.ts]: further properties *)
(* ================================================================== *)

Section UtilsFacts.
Context {NP : NodePath}.

(** X1.  [showError] makes one call of [console.error] whose first argument
    starts with [Error:]: the messages as they are when the first one starts
    with the prefix, the messages behind the prefix otherwise (also when
    there is none). *)
Theorem showError_prefix (msgs : list string) (p : Process) :
  exists first rest,
    showError msgs p = (Ret tt, logged p (AStr first :: rest))
    /\ Str.starts_with "Error:" first = true
    /\ (if match msgs with
            | m :: _ => Str.starts_with "Error:" m
            | [] => false
            end
        then AStr first :: rest = map AStr msgs
        else AStr first :: rest = AStr "Error:" :: map AStr msgs).
Proof.
  unfold showError. destruct msgs as [|m msgs].
  - exists "Error:", []. repeat split.
  - destruct (Str.starts_with "Error:" m) eqn:E.
    + exists m, (map AStr msgs). repeat split. exact E.
    + exists "Error:", (AStr m :: map AStr msgs). repeat split.
Qed.

Lemma mem_remove_char (c : ascii) (s : string) : Str.mem c (remove_char c s) = false.
Proof.
  induction s as [|b s IH]; [reflexivity |].
  simpl. destruct (Ascii.eqb b c) eqn:E; [exact IH |]. simpl. now rewrite E.
Qed.

Lemma mem_replace_source (c d : ascii) (s : string) :
  c <> d -> Str.mem c (replace_char c d s) = false.
Proof.
  intros Hd. induction s as [|b s IH]; [reflexivity |].
  simpl. destruct (Ascii.eqb b c) eqn:E.
  - assert (Ascii.eqb d c = false) as -> by (apply Ascii.eqb_neq; congruence).
    exact IH.
  - rewrite E. exact IH.
Qed.

Lemma mem_replace_other (x c d : ascii) (s : string) :
  x <> d -> Str.mem x s = false -> Str.mem x (replace_char c d s) = false.
Proof.
  intros Hd. induction s as [|b s IH]; [reflexivity |].
  simpl. intros H. apply orb_false_elim in H as [Hb Hs].
  rewrite (IH Hs), orb_false_r.
  destruct (Ascii.eqb b c); [apply Ascii.eqb_neq; congruence | exact Hb].
Qed.

Lemma remove_char_absent (c : ascii) (s : string) :
  Str.mem c s = false -> remove_char c s = s.
Proof.
  induction s as [|b s IH]; [reflexivity |].
  simpl. intros H. apply orb_false_elim in H as [Hb Hs].
  rewrite Hb. now rewrite (IH Hs).
Qed.

Lemma replace_char_absent (c d : ascii) (s : string) :
  Str.mem c s = false -> replace_char c d s = s.
Proof.
  induction s as [|b s IH]; [reflexivity |].
  simpl. intros H. apply orb_false_elim in H as [Hb Hs].
  rewrite Hb. now rewrite (IH Hs).
Qed.

(** X2.  The package name [getPackageName] returns holds neither [@] nor
    [/], is the name itself when that holds neither, and is left as it is by
    a second pass; with no name in the environment there is none. *)
Theorem getPackageName_clean (n : string) :
  getPackageName None = None
  /\ exists r,
      getPackageName (Some n) = Some r
      /\ Str.mem "@"%char r = false
      /\ Str.mem "/"%char r = false
      /\ getPackageName (Some r) = Some r
      /\ (Str.mem "@"%char n = false -> Str.mem "/"%char n = false -> r = n).
Proof.
  split; [reflexivity |].
  exists (replace_char "/" "-" (remove_char "@" n)).
  assert (Hat : Str.mem "@"%char (replace_char "/" "-" (remove_char "@" n)) = false).
  { apply mem_replace_other; [discriminate | apply mem_remove_char]. }
  assert (Hsl : Str.mem "/"%char (replace_char "/" "-" (remove_char "@" n)) = false).
  { apply mem_replace_source. discriminate. }
  split; [reflexivity |]. split; [exact Hat |]. split; [exact Hsl |]. split.
  - unfold getPackageName. f_equal.
    rewrite (remove_char_absent _ _ Hat). now apply replace_char_absent.
  - intros H1 H2. rewrite (remove_char_absent _ _ H1). now apply replace_char_absent.
Qed.

(** X3.  The three probes ask [stat] once, for [first] alone or for the
    joined path, and leave the process as it was.  When [stat] answers,
    [pathExists] is true and [fileExists] and [dirExists] tell the kind; on
    [ENOENT] all three are false; any other failure is thrown by all three.
    So a path that [fileExists] or [dirExists] accepts, [pathExists]
    accepts. *)
Theorem probes_by_stat (first : string) (others : list string) (p : Process) :
  let pathname := match others with [] => first | _ => path_join (first :: others) end in
  match fs_stat (fs p) pathname with
  | Ok st =>
      pathExists first others p = (Ret true, p)
      /\ fileExists first others p = (Ret (isFile st), p)
      /\ dirExists first others p = (Ret (isDirectory st), p)
  | Err e =>
      if decide (err_code e = Some "ENOENT")
      then pathExists first others p = (Ret false, p)
           /\ fileExists first others p = (Ret false, p)
           /\ dirExists first others p = (Ret false, p)
      else pathExists first others p = (Throw e, p)
           /\ fileExists first others p = (Throw e, p)
           /\ dirExists first others p = (Throw e, p)
  end
  /\ (fileExists first others p = (Ret true, p) \/ dirExists first others p = (Ret true, p) ->
      pathExists first others p = (Ret true, p)).
Proof.
  intros pathname.
  assert (Hcases :
    match fs_stat (fs p) pathname with
    | Ok st =>
        pathExists first others p = (Ret true, p)
        /\ fileExists first others p = (Ret (isFile st), p)
        /\ dirExists first others p = (Ret (isDirectory st), p)
    | Err e =>
        if decide (err_code e = Some "ENOENT")
        then pathExists first others p = (Ret false, p)
             /\ fileExists first others p = (Ret false, p)
             /\ dirExists first others p = (Ret false, p)
        else pathExists first others p = (Throw e, p)
             /\ fileExists first others p = (Throw e, p)
             /\ dirExists first others p = (Throw e, p)
    end).
  { unfold pathExists, fileExists, dirExists, exists_. fold pathname. unfold_m.
    destruct (fs_stat (fs p) pathname) as [st|e]; [repeat split |].
    destruct (decide (err_code e = Some "ENOENT")); repeat split. }
  split; [exact Hcases |].
  destruct (fs_stat (fs p) pathname) as [st|e].
  - now destruct Hcases as [H _].
  - destruct (decide (err_code e = Some "ENOENT"));
      destruct Hcases as [_ [Hf Hd]]; rewrite Hf, Hd; intros [H|H]; discriminate.
Qed.

End UtilsFacts.

Section JsonFacts.
Variable writeFile : string -> string -> M unit.
Variable T : Type.
Variable json5_parse : string -> Result T.
Variable JSON_stringify : T -> Result string.
Variable prettier_format : string -> Result string.

(** X4.  [readJsonFile] returns what [json5.parse] makes of the contents
    and logs nothing; a failure to read and a failure to parse are each
    reported by one call of [console.error] behind [Error:], naming the
    file, and the error caught is the error thrown. *)
Theorem readJsonFile_outcomes (filename : string) (p : Process) :
  (forall e, fs_readFile (fs p) filename = Err e ->
     readJsonFile T json5_parse filename p
     = (Throw e,
        logged p [AStr "Error:";
                  AStr ("Failed to read JSON5 file " +:+ filename +:+ ": " +:+ err_text e)]))
  /\ (forall contents e,
        fs_readFile (fs p) filename = Ok contents -> json5_parse contents = Err e ->
        readJsonFile T json5_parse filename p
        = (Throw e,
           logged p [AStr "Error:";
                     AStr ("Failed to parse JSON5 file " +:+ filename +:+ ": "
                           +:+ err_text e)]))
  /\ (forall contents value,
        fs_readFile (fs p) filename = Ok contents -> json5_parse contents = Ok value ->
        readJsonFile T json5_parse filename p = (Ret value, p)).
Proof.
  unfold readJsonFile, showError, lift_result. unfold_m. simpl.
  split; [|split].
  - intros e H. now rewrite H.
  - intros contents e H Hp. now rewrite H, Hp.
  - intros contents value H Hp. now rewrite H, Hp.
Qed.

(** X5.  [writeJsonFile] goes from [JSON.stringify] to the formatter to
    [writeFile]: when a step fails the later ones are not run (the file is
    not written), the failure is reported by one call of [console.error]
    whose text starts with a single [Error:], and the same error is thrown;
    when none fails, what is written is the formatted text. *)
Theorem writeJsonFile_steps (filename : string) (contents : T) (p : Process) :
  (forall e, JSON_stringify contents = Err e ->
     writeJsonFile writeFile T JSON_stringify prettier_format filename contents p
     = (Throw e,
        logged p [AStr "Error:"; AStr ("Failed to stringify JSON object: " +:+ err_text e)]))
  /\ (forall text e,
        JSON_stringify contents = Ok text -> prettier_format text = Err e ->
        writeJsonFile writeFile T JSON_stringify prettier_format filename contents p
        = (Throw e,
           logged p [AStr "Error:"; AStr ("Failed to format JSON object: " +:+ err_text e)]))
  /\ (forall text formatted,
        JSON_stringify contents = Ok text -> prettier_format text = Ok formatted ->
        writeJsonFile writeFile T JSON_stringify prettier_format filename contents p
        = match writeFile filename formatted p with
          | (Throw e, p') =>
              (Throw e,
               logged p' [AStr ("Error: Failed to write JSON file " +:+ filename +:+ ": "
                                +:+ err_text e)])
          | done => done
          end).
Proof.
  unfold writeJsonFile, writeJsonStringToFile, showError, lift_result. unfold_m.
  split; [|split].
  - intros e H. now rewrite H.
  - intros text e H Hf. now rewrite H, Hf.
  - intros text formatted H Hf. rewrite H, Hf.
    destruct (writeFile filename formatted p) as [[[]|e|code] p']; reflexivity.
Qed.

End JsonFacts.

Section CommandFacts.

Lemma onChildEvent_settled (x : Execution) (ev : ChildEvent) :
  0 < fulfilled x ->
  promise (onChildEvent x ev) = promise x
  /\ calls (onChildEvent x ev) = calls x
  /\ fulfilled (onChildEvent x ev) = S (fulfilled x).
Proof.
  intros H. unfold onChildEvent. destruct (fulfilled x) as [|n]; [lia |]. now simpl.
Qed.

Lemma afterEvents_from (x : Execution) (events : list ChildEvent) :
  0 < fulfilled x ->
  promise (foldl onChildEvent x events) = promise x
  /\ calls (foldl onChildEvent x events) = calls x
  /\ fulfilled (foldl onChildEvent x events) = fulfilled x + List.length events.
Proof.
  revert x. induction events as [|ev events IH]; intros x H; simpl.
  - repeat split. lia.
  - destruct (onChildEvent_settled x ev H) as [Hp [Hc Hf]].
    destruct (IH (onChildEvent x ev)) as [Hp' [Hc' Hf']]; [lia |].
    rewrite Hp', Hc', Hf', Hp, Hc, Hf. repeat split. lia.
Qed.

(** X6.  Of the events of the child, the first one settles the promise of
    [executeCommand] (a [close] resolves it with the code, an [error]
    rejects it with the error), by the one call of [resolve] or [reject]
    ever made; the later events only move the counter. *)
Theorem executeCommand_first_event (ev : ChildEvent) (later : list ChildEvent) :
  promise (afterEvents (ev :: later))
  = Some (match ev with ChildError err => Rejected err | ChildClose code => Resolved code end)
  /\ calls (afterEvents (ev :: later)) = 1
  /\ fulfilled (afterEvents (ev :: later)) = S (List.length later)
  /\ forall more, promise (afterEvents (ev :: later ++ more))
                  = promise (afterEvents (ev :: later)).
Proof.
  unfold afterEvents. cbn [foldl].
  assert (H1 : 0 < fulfilled (onChildEvent spawned ev)) by (simpl; lia).
  destruct (afterEvents_from _ later H1) as [Hp [Hc Hf]].
  rewrite Hp, Hc, Hf. repeat split.
  intros more. cbn [foldl].
  destruct (afterEvents_from _ (later ++ more) H1) as [Hp' _].
  now rewrite Hp'.
Qed.

End CommandFacts.

(* ================================================================== *)
(** * [koolie.ts]: further properties *)
(* ================================================================== *)

Section DiscoveryFacts.
Context {NP : NodePath}.
Variable Builder : Type.
Variable import_default : string -> M (DefaultExport Builder).
Variable yargs_argv : list (string * string * Builder) -> M Args.

Lemma importSubCommandSourceFile_accumulates
      (filename : string) (scs : list (SubCommand Builder)) (p : Process) :
  Accumulates scs (importSubCommandSourceFile import_default filename scs p).
Proof.
  rewrite importSubCommandSourceFile_cases.
  destruct (import_default filename p) as [[d|err|code] p']; simpl; [|exact I|exact I].
  now apply prefix_app_r.
Qed.

Lemma importWindowsSubCommand_accumulates
      (wrapper : string) (scs : list (SubCommand Builder)) (p : Process) :
  Accumulates scs (importWindowsSubCommand import_default wrapper scs p).
Proof.
  unfold importWindowsSubCommand. unfold_m.
  destruct (fs_readFile (fs p) wrapper) as [contents|err]; [|exact I].
  destruct (wrapperTarget contents) as [m1|]; [|simpl; reflexivity].
  apply importSubCommandSourceFile_accumulates.
Qed.

Lemma importSubCommand_accumulates
      (filename : string) (scs : list (SubCommand Builder)) (p : Process) :
  Accumulates scs (importSubCommand import_default filename scs p).
Proof.
  unfold importSubCommand. unfold bind at 1. unfold try_catch at 1.
  destruct (fileExists (filename +:+ ".js.cmd") [] p) as [[[|]|err|code] p'].
  - apply importWindowsSubCommand_accumulates.
  - apply importSubCommandSourceFile_accumulates.
  - exact I.
  - exact I.
Qed.

Lemma importAll_steps
        (files : list string) (subCommands : list (SubCommand Builder)) (p : Process) :
  Accumulates subCommands (importAll import_default files subCommands p).
Proof.
  revert subCommands p. induction files as [|file files IH]; intros scs p.
  - simpl. reflexivity.
  - cbn [importAll]. unfold bind.
    pose proof (importSubCommand_accumulates file scs p) as H.
    destruct (importSubCommand import_default file scs p) as [[scs'|err|code] p'];
      [|destruct H|exact I].
    simpl in H. specialize (IH scs' p').
    destruct (importAll import_default files scs' p') as [[scs''|err|code] p''];
      [|destruct IH|exact I].
    simpl in *. now transitivity scs'.
Qed.

(** X7.  The loop of discovery throws nothing and loses nothing: whatever
    the files, the wrappers and the modules do, it either ends the process
    or returns the list it was given with sub-commands added at its end. *)
Theorem importAll_accumulates
        (files : list string) (subCommands : list (SubCommand Builder)) (p : Process) :
  match importAll import_default files subCommands p with
  | (Ret subCommands', _) => exists added, subCommands' = subCommands ++ added
  | (Throw _, _) => False
  | (Exit _, _) => True
  end.
Proof.
  pose proof (importAll_steps files subCommands p) as H.
  destruct (importAll import_default files subCommands p) as [[scs|err|code] p'];
    [exact H | exact H | exact I].
Qed.

Lemma importAll_app (files1 files2 : list string) (scs : list (SubCommand Builder))
      (p : Process) :
  importAll import_default (files1 ++ files2) scs p
  = (scs' <- importAll import_default files1 scs ;; importAll import_default files2 scs') p.
Proof.
  revert scs p. induction files1 as [|file files1 IH]; intros scs p.
  - reflexivity.
  - cbn [importAll app]. unfold bind.
    destruct (importSubCommand import_default file scs p) as [[scs'|err|code] p'];
      [|reflexivity|reflexivity].
    rewrite IH. reflexivity.
Qed.

Lemma importSubCommand_direct (file : string) (scs : list (SubCommand Builder)) (p : Process) :
  NoFileAt p (file +:+ ".js.cmd") ->
  importSubCommand import_default file scs p
  = importSubCommandSourceFile import_default file scs p.
Proof.
  intros H. unfold importSubCommand. unfold bind at 1. unfold try_catch at 1.
  now rewrite (fileExists_NoFileAt _ _ H).
Qed.

(** X8.  Sub-commands are registered in the order of the files, and within
    a file in the order of its export: when no file has a wrapper and the
    loader answers for every file without touching the process, the loop
    returns the list it was given followed by what each file exports, file
    after file. *)
Theorem discovery_order
        (files : list string) (modules : string -> DefaultExport Builder)
        (subCommands : list (SubCommand Builder)) (p : Process) :
  (forall file, file ∈ files -> NoFileAt p (file +:+ ".js.cmd")) ->
  (forall file, file ∈ files -> import_default file p = (Ret (modules file), p)) ->
  importAll import_default files subCommands p
  = (Ret (subCommands ++ flat_map (fun file => exportedBy (modules file)) files), p).
Proof.
  revert subCommands. induction files as [|file files IH]; intros scs Hw Hm.
  - simpl. now rewrite app_nil_r.
  - cbn [importAll flat_map]. unfold bind.
    rewrite importSubCommand_direct by (apply Hw; now left).
    rewrite importSubCommandSourceFile_cases, Hm by now left.
    rewrite IH.
    + now rewrite app_assoc.
    + intros f Hf. apply Hw. now right.
    + intros f Hf. apply Hm. now right.
Qed.

(** X9.  Discovery is all or nothing: when the module of a file (one
    without a wrapper) cannot be imported, the failure is reported with the
    name of the file and the process ends with status 1; the files after it
    are not looked at, and what the files before it gave is not used. *)
Theorem discovery_stops_at_failure
        (before after : list string) (file : string)
        (subCommands found : list (SubCommand Builder)) (p p1 p2 : Process) (err : JsError) :
  importAll import_default before subCommands p = (Ret found, p1) ->
  NoFileAt p1 (file +:+ ".js.cmd") ->
  import_default file p1 = (Throw err, p2) ->
  importAll import_default (before ++ file :: after) subCommands p
  = (Exit 1, logged p2 [AStr ("Failed to import sub-command source: " +:+ file +:+ ": "
                              +:+ err_text err)]).
Proof.
  intros Hb Hw Hm. rewrite importAll_app. unfold bind at 1. rewrite Hb.
  cbn [importAll]. unfold bind.
  rewrite (importSubCommand_direct file found p1 Hw).
  now rewrite importSubCommandSourceFile_cases, Hm.
Qed.

Lemma subCommandFilesIn_no_throw (dir : string) (p : Process) :
  forall err p', subCommandFilesIn dir p <> (Throw err, p').
Proof.
  intros err p'. unfold subCommandFilesIn. unfold_m.
  destruct (fs_readdir (fs p) dir); discriminate.
Qed.

(** X10.  [main] never returns: the [process.exit(0)] that follows it in
    the module body is never reached.  With the accessors of the
    sub-commands and the builder calls of [yargs] as values, which throw
    nothing, the one exception that can leave [main] is the one thrown
    while the directory is resolved (a failed probe or a missing script
    path); everything after that ends in [process.exit].  The program as a
    whole always ends in [process.exit]. *)
Theorem main_never_returns (p : Process) :
  match main import_default yargs_argv p with
  | (Ret _, _) => False
  | (Throw err, p') => resolveBinDir p = (Throw err, p')
  | (Exit _, _) => True
  end
  /\ exists code p', program import_default yargs_argv p = (Exit code, p').
Proof.
  assert (Hmain : match main import_default yargs_argv p with
                  | (Ret _, _) => False
                  | (Throw err, p') => resolveBinDir p = (Throw err, p')
                  | (Exit _, _) => True
                  end).
  { unfold main, discover. unfold bind at 1. unfold bind at 1.
    destruct (resolveBinDir p) as [[dir|err|code] p0]; [|reflexivity|exact I].
    unfold bind at 1.
    pose proof (subCommandFilesIn_no_throw dir p0) as Hf.
    destruct (subCommandFilesIn dir p0) as [[files|err|code] p1];
      [|now destruct (Hf err p1)|exact I].
    pose proof (importAll_steps files [] p1) as Ha.
    destruct (importAll import_default files [] p1) as [[scs|err|code] p2];
      [|destruct Ha|exact I].
    destruct (dispatch_exits Builder yargs_argv scs p2) as [code [p3 ->]]. exact I. }
  split; [exact Hmain |].
  unfold program. unfold try_catch, bind. unfold_m.
  destruct (main import_default yargs_argv p) as [[[]|err|code] p']; eauto.
Qed.

(** X11.  When the directory searched cannot be listed, the failure is
    reported with the name of the directory and the process ends with
    status 1: no module is imported and no command is run. *)
Theorem unreadable_directory_is_fatal (dir : string) (err : JsError) (p : Process) :
  resolveBinDir p = (Ret dir, p) ->
  fs_readdir (fs p) dir = Err err ->
  program import_default yargs_argv p
  = (Exit 1, logged p [AStr ("Error: Failed to file Koolie sub-command files in "
                             +:+ dir +:+ ": " +:+ err_text err)]).
Proof.
  intros Hd Hr. unfold program, main, discover. unfold try_catch at 1.
  do 3 (unfold bind at 1). rewrite Hd. unfold bind at 1.
  unfold subCommandFilesIn. unfold_m. now rewrite Hr.
Qed.

(** X12.  What dispatch does when there is no command to look up: an
    exception of the parser is logged and becomes status 1, a parser that
    ends the process (as for a help request) decides the status, and a
    command line with no positional token is refused as
    [undefined: Unsupported sub-command] with status 1, whatever is
    registered. *)
Theorem dispatch_without_command (subCommands : list (SubCommand Builder)) (p : Process) :
  (forall err p1, yargs_argv (commandsOf subCommands) p = (Throw err, p1) ->
     dispatch yargs_argv subCommands p = (Exit 1, logged p1 [AErr err]))
  /\ (forall code p1, yargs_argv (commandsOf subCommands) p = (Exit code, p1) ->
        dispatch yargs_argv subCommands p = (Exit code, p1))
  /\ (forall args p1, yargs_argv (commandsOf subCommands) p = (Ret args, p1) ->
        positional args = [] ->
        dispatch yargs_argv subCommands p
        = (Exit 1, logged p1 [AStr "undefined: Unsupported sub-command"])).
Proof.
  unfold dispatch, shift. unfold_m. split; [|split].
  - intros err p1 H. now rewrite H.
  - intros code p1 H. now rewrite H.
  - intros args p1 H Hp. now rewrite H, Hp.
Qed.

(** X13.  Insert and lookup agree: a name is found in the registry exactly
    when a sub-command has it, and when the names are distinct every
    sub-command is found under its name with its own runner. *)
Theorem registry_lookup (subCommands : list (SubCommand Builder)) :
  NoDup (map name subCommands) ->
  (forall sc, sc ∈ subCommands -> runnersOf subCommands !! name sc = Some (run sc))
  /\ (forall key, is_Some (runnersOf subCommands !! key) <-> key ∈ map name subCommands).
Proof.
  intros Hnd. split.
  - induction subCommands as [|last scs IH] using rev_ind; intros sc Hin.
    + now apply elem_of_nil in Hin.
    + rewrite runnersOf_snoc, lookup_insert.
      rewrite map_app in Hnd. apply NoDup_app in Hnd as [Hnd [Hdis _]].
      apply elem_of_app in Hin as [Hin | Hin].
      * destruct (decide (name last = name sc)) as [E|E].
        -- exfalso. apply (Hdis (name sc)).
           ++ now apply list_elem_of_fmap_2.
           ++ simpl. rewrite E. now left.
        -- now apply IH.
      * apply list_elem_of_singleton in Hin as ->.
        destruct (decide (name last = name last)); [reflexivity | contradiction].
  - intros key. clear Hnd.
    induction subCommands as [|last scs IH] using rev_ind.
    + split; [intros [x Hx]; discriminate | intros H; now apply elem_of_nil in H].
    + rewrite runnersOf_snoc, lookup_insert, map_app, elem_of_app.
      destruct (decide (name last = key)) as [E|E].
      * split; [|eauto]. intros _. right. simpl. rewrite E. now left.
      * rewrite IH. split; [now left |].
        intros [H|H]; [exact H |]. simpl in H.
        apply list_elem_of_singleton in H. congruence.
Qed.

End DiscoveryFacts.

(* ================================================================== *)
(** * Entry points: further properties *)
(* ================================================================== *)

Section EntryPointFacts.
Context {NP : NodePath} {GL : GlobLib} {RE : JsRegExp}.

Lemma existsb_filter_keep {A} (P keep : A -> bool) (l : list A) :
  (forall x, P x = true -> keep x = true) ->
  existsb P (List.filter keep l) = existsb P l.
Proof.
  intros H. induction l as [|a l IH]; [reflexivity |].
  cbn [List.filter existsb]. destruct (keep a) eqn:Ek; cbn [existsb]; rewrite IH.
  - reflexivity.
  - destruct (P a) eqn:Ep; [|reflexivity]. rewrite (H a Ep) in Ek. discriminate.
Qed.

Lemma preferIndexFilter_has_index (srcFiles : list string) (d : string) :
  existsb (fun f => inDir d f && isIndexFile f) (preferIndexFilter srcFiles)
  = existsb (fun f => inDir d f && isIndexFile f) srcFiles.
Proof.
  unfold preferIndexFilter. apply existsb_filter_keep.
  intros f H. apply andb_true_iff in H as [_ H]. unfold isIndexFile in H. now rewrite H.
Qed.

(** X14.  What preferring the index keeps: the files returned are files it
    was given, in their order; every [index.ts] is kept; every directory
    that had a file still has one; and filtering a second time changes
    nothing. *)
Theorem preferIndexFilter_keeps (srcFiles : list string) :
  sublist (preferIndexFilter srcFiles) srcFiles
  /\ List.filter isIndexFile (preferIndexFilter srcFiles) = List.filter isIndexFile srcFiles
  /\ (forall f, f ∈ srcFiles ->
        exists g, g ∈ preferIndexFilter srcFiles /\ dirname g = dirname f)
  /\ preferIndexFilter (preferIndexFilter srcFiles) = preferIndexFilter srcFiles.
Proof.
  split; [apply filter_sublist |]. split; [|split].
  - unfold preferIndexFilter. rewrite filter_both. apply filter_ext.
    intros f. unfold isIndexFile. now destruct (String.eqb (basename f) "index.ts").
  - intros f Hin.
    destruct (existsb (fun g => inDir (dirname f) g && isIndexFile g) srcFiles) eqn:E.
    + apply existsb_exists in E as [g [Hg Hgi]]. apply andb_true_iff in Hgi as [Hd Hi].
      exists g. split; [|now apply String.eqb_eq in Hd].
      apply list_elem_of_In, filter_In. split; [exact Hg |].
      unfold isIndexFile in Hi. now rewrite Hi.
    + exists f. split; [|reflexivity].
      apply list_elem_of_In, filter_In. split; [now apply list_elem_of_In |].
      rewrite dirHasIndexOf_spec, E. now rewrite orb_true_r.
  - set (kept := preferIndexFilter srcFiles).
    unfold preferIndexFilter at 1. fold kept.
    transitivity (List.filter (fun _ => true) kept); [|apply filter_all].
    apply filter_ext_in. intros f Hin. rewrite dirHasIndexOf_spec. unfold kept.
    rewrite preferIndexFilter_has_index, <- dirHasIndexOf_spec.
    unfold kept, preferIndexFilter in Hin. now apply filter_In in Hin as [_ Hk].
Qed.

Lemma getDefaultEntryPoints_rooted (args : Args) (root : string) (p : Process) :
  SourceRoot args p root ->
  getDefaultEntryPoints args p
  = (srcFiles <- getSourceFiles root ["**/*.ts"] ["**/*.spec.ts"] ;;
     ret (if preferIndex args then preferIndexFilter srcFiles else srcFiles)) p.
Proof.
  intros Hroot. unfold getDefaultEntryPoints, SourceRoot in *.
  destruct (src args) as [s|].
  - subst s. unfold bind at 1. unfold ret at 1. reflexivity.
  - destruct Hroot as [-> [st [Hst Hdir]]].
    unfold bind at 1. unfold bind at 1.
    rewrite (dirExists_found _ st p Hst), Hdir. unfold ret at 1. reflexivity.
Qed.


End EntryPointFacts.

Section GlobFacts.
Import Posix GlobDefault.
Context {RE : JsRegExp}.

Lemma matches_any_unfold (re : list re_tok) (s : string) :
  matches (Any :: re) s
  = matches re s
    || match s with
       | String d s' => negb (Str.is_line_terminator d) && matches (Any :: re) s'
       | EmptyString => false
       end.
Proof. destruct s; reflexivity. Qed.

Lemma matches_chr_unfold (c : ascii) (re : list re_tok) (s : string) :
  matches (Chr c :: re) s
  = match s with
    | String d s' => Ascii.eqb c d && matches re s'
    | EmptyString => false
    end.
Proof. reflexivity. Qed.

Lemma matches_any_elim (re : list re_tok) (s : string) :
  matches (Any :: re) s = true ->
  exists a b, s = a +:+ b /\ Str.no_line_terminator a = true /\ matches re b = true.
Proof.
  induction s as [|d s IH]; rewrite matches_any_unfold; intros H.
  - rewrite orb_false_r in H. now exists "", "".
  - apply orb_true_iff in H as [H | H]; [now exists "", (String d s) |].
    apply andb_true_iff in H as [Hd H]. destruct (IH H) as [a [b [-> [Ha Hb]]]].
    exists (String d a), b. split; [reflexivity |]. split; [|exact Hb].
    simpl. now rewrite Hd, Ha.
Qed.

Lemma matches_any_intro (re : list re_tok) (a b : string) :
  Str.no_line_terminator a = true -> matches re b = true ->
  matches (Any :: re) (a +:+ b) = true.
Proof.
  intros Ha Hb. induction a as [|d a IH].
  - rewrite matches_any_unfold. change ("" +:+ b) with b. now rewrite Hb.
  - simpl in Ha. apply andb_true_iff in Ha as [Hd Ha].
    change (String d a +:+ b) with (String d (a +:+ b)).
    rewrite matches_any_unfold, Hd, (IH Ha). now rewrite orb_true_r.
Qed.

Lemma matches_literal (lit : string) (re : list re_tok) (s : string) :
  matches (map Chr (Str.to_list lit) ++ re) s = true
  <-> exists s', s = lit +:+ s' /\ matches re s' = true.
Proof.
  revert s. induction lit as [|c lit IH]; intros s.
  - change (map Chr (Str.to_list "") ++ re) with re. split; [eauto |].
    now intros [s' [-> H]].
  - change (map Chr (Str.to_list (String c lit)) ++ re)
      with (Chr c :: (map Chr (Str.to_list lit) ++ re)).
    rewrite matches_chr_unfold. destruct s as [|d s].
    + split; [discriminate | intros [s' [[=] _]]].
    + split.
      * intros H. apply andb_true_iff in H as [Hc H]. apply Ascii.eqb_eq in Hc as ->.
        apply IH in H as [s' [-> H]]. now exists s'.
      * intros [s' [Heq H]]. change (String c lit +:+ s') with (String c (lit +:+ s')) in Heq.
        injection Heq as -> ->. rewrite Ascii.eqb_refl. apply IH. eauto.
Qed.

Lemma append_empty_r (s : string) : s +:+ "" = s.
Proof. induction s as [|c s IH]; simpl; [reflexivity | f_equal; exact IH]. Qed.

Lemma matches_end (s : string) : matches [] s = true <-> s = "".
Proof. destruct s; simpl; split; congruence. Qed.

(** A path under a directory, with a given ending, on one line. *)
Lemma dir_glob_shape (ending : string) (r : string) :
  matches ([Any; Chr "/"%char; Any] ++ map Chr (Str.to_list ending)) r = true
  <-> exists a b, r = a +:+ "/" +:+ b +:+ ending
                  /\ Str.no_line_terminator a = true /\ Str.no_line_terminator b = true.
Proof.
  split.
  - intros H. apply matches_any_elim in H as [a [s1 [-> [Ha H]]]].
    rewrite matches_chr_unfold in H. destruct s1 as [|d s1]; [discriminate |].
    apply andb_true_iff in H as [Hd H]. apply Ascii.eqb_eq in Hd as <-.
    apply matches_any_elim in H as [b [s2 [-> [Hb H]]]].
    rewrite <- (app_nil_r (map Chr (Str.to_list ending))) in H.
    apply matches_literal in H as [s' [-> H]]. apply matches_end in H as ->.
    exists a, b. split; [|now split].
    now rewrite append_empty_r.
  - intros [a [b [-> [Ha Hb]]]].
    apply (matches_any_intro _ a _ Ha). change ("/" +:+ b +:+ ending) with (String "/" (b +:+ ending)).
    rewrite matches_chr_unfold, Ascii.eqb_refl. simpl andb.
    apply (matches_any_intro _ b _ Hb).
    rewrite <- (app_nil_r (map Chr (Str.to_list ending))).
    apply matches_literal. exists "". split; [|reflexivity].
    now rewrite append_empty_r.
Qed.

Lemma mem_middle (c : ascii) (a s : string) : Str.mem c (a +:+ String c s) = true.
Proof.
  induction a as [|x a IH]; simpl.
  - now rewrite Ascii.eqb_refl.
  - rewrite IH. now rewrite orb_true_r.
Qed.

Lemma ending_after_separator (a s u ending : string) (c : ascii) :
  a +:+ String c s = u +:+ ending -> Str.mem c ending = false ->
  exists v, s = v +:+ ending /\ u = a +:+ String c v.
Proof.
  revert u. induction a as [|x a IH]; intros u Heq Hmem.
  - destruct u as [|y u].
    + change ("" +:+ ending) with ending in Heq. subst ending.
      rewrite (mem_middle c "" s) in Hmem. discriminate.
    + simpl in Heq. injection Heq as <- ->. now exists u.
  - destruct u as [|y u].
    + change ("" +:+ ending) with ending in Heq. subst ending.
      rewrite (mem_middle c (String x a) s) in Hmem. discriminate.
    + change (String x a +:+ String c s) with (String x (a +:+ String c s)) in Heq.
      change (String y u +:+ ending) with (String y (u +:+ ending)) in Heq.
      injection Heq as <- Heq. destruct (IH u Heq Hmem) as [v [-> ->]]. now exists v.
Qed.

(** X16.  Test files are ignored: with [glob-to-regexp] called as the code
    calls it, in a working directory without special characters, every
    entry point [getDefaultEntryPoints] returns has a separator in it, ends
    in [.ts] and does not end in [.spec.ts]; and every one comes from a
    regular file of the walk: it is the path of that file without the
    leading working directory when the file lies under it, and the path as
    it was walked when it does not. *)
Theorem entry_points_are_sources
        (args : Args) (root : string) (items : list Item) (p : Process) :
  PlainCwd p ->
  SourceRoot args p root ->
  fs_klaw (fs p) root = Ok items ->
  exists entryPoints,
    getDefaultEntryPoints args p = (Ret entryPoints, p)
    /\ forall r, r ∈ entryPoints ->
         (exists a b, r = a +:+ "/" +:+ b +:+ ".ts")
         /\ (forall u, r <> u +:+ ".spec.ts")
         /\ (exists item, item ∈ items /\ isFile (stats item) = true
                          /\ (path item = cwd p +:+ "/" +:+ r
                              \/ (path item = r
                                  /\ Str.starts_with (cwd p +:+ "/") r = false))).
Proof.
  intros Hplain Hroot Hk.
  rewrite (getDefaultEntryPoints_returns args root items p Hplain Hroot Hk). cbv zeta.
  destruct (getSourceFiles_matches root ["**/*.ts"] ["**/*.spec.ts"] items p Hplain Hk)
    as [matched [Hret [Hiff [Hfrom _]]]].
  rewrite (getSourceFiles_returns root _ _ items p Hplain Hk) in Hret.
  injection Hret as Hret.
  rewrite Hret. eexists. split; [reflexivity |].
  intros r Hin.
  assert (Hm : r ∈ matched).
  { destruct (preferIndex args); [|exact Hin].
    apply list_elem_of_In in Hin. unfold preferIndexFilter in Hin.
    apply filter_In in Hin as [Hin _]. now apply list_elem_of_In. }
  destruct (Hfrom r Hm) as [item [Hitem [Hfile ->]]].
  apply (Hiff item Hitem Hfile) in Hm as [[glob [Hg Hts]] Hex].
  apply list_elem_of_singleton in Hg as ->.
  assert (Hspec := Hex "**/*.spec.ts" (proj2 (list_elem_of_singleton _ _) eq_refl)).
  set (r := stripCwd (cwd p) (path item)) in *.
  apply (dir_glob_shape ".ts" r) in Hts as [a [b [Hr [Ha Hb]]]].
  split; [now exists a, b |]. split.
  2:{ exists item. split; [exact Hitem |]. split; [exact Hfile |].
      subst r. unfold stripCwd, Str.starts_with.
      change (String sep EmptyString) with "/".
      destruct (Str.strip_prefix (cwd p +:+ "/") (path item)) as [rest|] eqn:E.
      - left. apply strip_prefix_Some in E. rewrite E. apply append_assoc.
      - right. split; [reflexivity |]. now rewrite E. }
  intros u Hu.
  assert (Hend : a +:+ String "/" (b +:+ ".ts") = u +:+ ".spec.ts").
  { rewrite <- Hu, Hr. reflexivity. }
  apply ending_after_separator in Hend as [v [Hv _]]; [|reflexivity].
  assert (Hnv : Str.no_line_terminator v = true).
  { assert (H : Str.no_line_terminator (b +:+ ".ts") = true)
      by (rewrite no_line_terminator_app, Hb; reflexivity).
    rewrite Hv, no_line_terminator_app in H. now apply andb_true_iff in H as [H _]. }
  assert (Hmatch : test (GlobToRegExp "**/*.spec.ts") r = true).
  { apply (dir_glob_shape ".spec.ts" r). exists a, v. split; [|now split].
    rewrite Hr. change ("/" +:+ b +:+ ".ts") with (String "/" (b +:+ ".ts")).
    now rewrite Hv. }
  rewrite Hmatch in Hspec. discriminate.
Qed.

End GlobFacts.

(* ================================================================== *)
(** * [SubCommandBuildDocs.run]: properties *)
(* ================================================================== *)

Section DocsRunFacts.
Context {NP : NodePath} {GL : GlobLib} {RE : JsRegExp}.
Variable console_log : string -> M unit.
Variable message : JsError -> string.
Variable executeCommand : string -> list string -> M Z.

Import SubCommandBuildDocs.

Lemma entryPointArgsOf_from (acc entryPoints : list string) :
  foldl (fun entryPointArgs index => entryPointArgs ++ ["--entryPoints"; index])
        acc entryPoints
  = acc ++ flat_map (fun index => ["--entryPoints"; index]) entryPoints.
Proof.
  revert acc. induction entryPoints as [|e l IH]; intros acc; simpl.
  - now rewrite app_nil_r.
  - rewrite IH. now rewrite <- app_assoc.
Qed.

Lemma entryPointArgsOf_pairs (entryPoints : list string) :
  entryPointArgsOf entryPoints = flat_map (fun index => ["--entryPoints"; index]) entryPoints.
Proof. unfold entryPointArgsOf. now rewrite entryPointArgsOf_from. Qed.

Lemma run_given (args : DocsArgs) (given : list string) (p : Process) :
  entryPoint args = Some given -> given <> [] ->
  run console_log message executeCommand args p
  = (failed <-
       (if html args
        then rc <- generateHtmlDocs console_log executeCommand (entryPointArgsOf given) ;;
             ret (if (rc =? 0)%Z then None else Some rc)
        else ret None) ;;
     match failed with
     | Some rc => ret rc
     | None =>
         failed <-
           (if markdown args
            then rc <- generateMarkdownDocs console_log executeCommand
                         (entryPointArgsOf given) ;;
                 ret (if (rc =? 0)%Z then None else Some rc)
            else ret None) ;;
         match failed with
         | Some rc => ret rc
         | None => ret 0%Z
         end
     end) p.
Proof.
  intros He Hne. unfold run. rewrite He. simpl default.
  destruct given as [|e l]; [contradiction |]. reflexivity.
Qed.

(** X17.  With entry points given on the command line the sources are not
    walked: when only the HTML documentation is asked for and its
    configuration is there, [run] is one run of [typedoc] with [--options],
    the configuration file, and [--entryPoints] before each entry point, in
    the order given; its status is the status of [run]. *)
Theorem run_explicit_entry_points
        (args : DocsArgs) (given : list string) (p p1 : Process) :
  entryPoint args = Some given -> given <> [] ->
  html args = true -> markdown args = false ->
  IsFileAt p (path_join ["docs"; "html-config.cjs"]) ->
  console_log "Generating HTML documentation" p = (Ret tt, p1) ->
  run console_log message executeCommand args p
  = executeCommand "typedoc"
      (["--options"; path_join ["docs"; "html-config.cjs"]]
       ++ flat_map (fun index => ["--entryPoints"; index]) given) p1.
Proof.
  intros He Hne Hh Hm Hcfg Hlog.
  rewrite (run_given args given p He Hne), Hh, Hm.
  unfold generateHtmlDocs. unfold bind.
  rewrite (fileExists_IsFileAt _ _ Hcfg). cbn [negb]. cbv beta iota.
  rewrite Hlog, entryPointArgsOf_pairs.
  destruct (executeCommand _ _ p1) as [[rc|err|code] p2]; [|reflexivity|reflexivity].
  unfold ret. destruct (rc =? 0)%Z eqn:E; [|reflexivity].
  apply Z.eqb_eq in E as ->. reflexivity.
Qed.

(** X18.  With no entry point given, an exception of the resolution (no
    source root, a walk that fails) is not passed on: its message goes to
    [console.error], the status is 1, and no documentation is generated,
    whatever [--html] and [--markdown] say. *)
Theorem run_resolution_failure (args : DocsArgs) (err : JsError) (p p1 : Process) :
  default [] (entryPoint args) = [] ->
  getDefaultEntryPoints (common args) p = (Throw err, p1) ->
  run console_log message executeCommand args p
  = (Ret 1%Z, logged p1 [AStr (message err)]).
Proof.
  intros He Hr. unfold run. rewrite He. simpl. unfold bind, try_catch.
  rewrite Hr. reflexivity.
Qed.

(** X19.  The HTML documentation comes first and its failure is final: a
    status other than 0 is the status of [run] and the Markdown
    documentation is not generated; after a status 0, [run] is the
    generation of the Markdown documentation when it is asked for, and
    status 0 otherwise. *)
Theorem run_html_first
        (args : DocsArgs) (given : list string) (rc : Z) (p p1 : Process) :
  entryPoint args = Some given -> given <> [] ->
  html args = true ->
  generateHtmlDocs console_log executeCommand (entryPointArgsOf given) p = (Ret rc, p1) ->
  (rc <> 0%Z -> run console_log message executeCommand args p = (Ret rc, p1))
  /\ (rc = 0%Z ->
      run console_log message executeCommand args p
      = if markdown args
        then generateMarkdownDocs console_log executeCommand (entryPointArgsOf given) p1
        else (Ret 0%Z, p1)).
Proof.
  intros He Hne Hh Hg. rewrite (run_given args given p He Hne), Hh. split.
  - intros Hrc. unfold bind at 1. unfold bind at 1. rewrite Hg. unfold ret at 1.
    apply Z.eqb_neq in Hrc. now rewrite Hrc.
  - intros ->. unfold bind at 1. unfold bind at 1. rewrite Hg. unfold ret at 1.
    simpl. destruct (markdown args); [|reflexivity].
    unfold bind.
    destruct (generateMarkdownDocs _ _ _ p1) as [[rc'|err|code] p2];
      [|reflexivity|reflexivity].
    unfold ret. destruct (rc' =? 0)%Z eqn:E; [|reflexivity].
    apply Z.eqb_eq in E as ->. reflexivity.
Qed.

(** X20.  A configuration file that is not there is no error: the
    generation is skipped with status 0 and [typedoc] is not run, for the
    HTML documentation as for the Markdown documentation. *)
Theorem generation_skipped_without_config (entryPoints : list string) (p p1 : Process) :
  (NoFileAt p (path_join ["docs"; "html-config.cjs"]) ->
   console_log "Skipping HTML generation due to missing config file" p = (Ret tt, p1) ->
   generateHtmlDocs console_log executeCommand entryPoints p = (Ret 0%Z, p1))
  /\ (NoFileAt p (path_join ["docs"; "markdown-config.cjs"]) ->
      console_log "Skipping Markdown generation due to missing config file" p = (Ret tt, p1) ->
      generateMarkdownDocs console_log executeCommand entryPoints p = (Ret 0%Z, p1)).
Proof.
  split; intros Hno Hlog.
  - unfold generateHtmlDocs. unfold bind.
    rewrite (fileExists_NoFileAt _ _ Hno). cbn [negb]. cbv beta iota. now rewrite Hlog.
  - unfold generateMarkdownDocs. unfold bind.
    rewrite (fileExists_NoFileAt _ _ Hno). cbn [negb]. cbv beta iota. now rewrite Hlog.
Qed.

End DocsRunFacts.

(* ================================================================== *)
(** * [SubCommandBuildDist]: properties *)
(* ================================================================== *)

Section DistFacts.
Context {NP : NodePath}.
Variable mkdirp : string -> M unit.
Variable copy : string -> string -> M unit.
Variable writeFile : string -> string -> M unit.
Variable path_normalize : string -> string.
Variable path_resolve : string -> string -> string.

Import SubCommandBuildDist.

(** ** The set of the files to copy *)

Lemma existsb_eqb_elem (x : string) (seen : list string) :
  existsb (String.eqb x) seen = true <-> x ∈ seen.
Proof.
  rewrite existsb_exists, list_elem_of_In. split.
  - intros [y [Hin He]]. apply String.eqb_eq in He as ->. exact Hin.
  - intros Hin. exists x. split; [exact Hin | apply String.eqb_refl].
Qed.

Lemma setFrom_elem (l seen : list string) (f : string) :
  f ∈ setFrom seen l <-> f ∈ l /\ f ∉ seen.
Proof.
  revert seen. induction l as [|x l IH]; intros seen; simpl.
  - split; [intros H; inversion H | intros [H _]; inversion H].
  - destruct (existsb (String.eqb x) seen) eqn:E.
    + apply existsb_eqb_elem in E. rewrite IH, elem_of_cons. split.
      * intros [H1 H2]. split; [now right | exact H2].
      * intros [[-> | H1] H2]; [contradiction | now split].
    + assert (Hx : x ∉ seen).
      { intros H. apply existsb_eqb_elem in H. congruence. }
      rewrite !elem_of_cons, IH, elem_of_cons. split.
      * intros [-> | [H1 H2]]; [split; [now left | exact Hx] |].
        split; [now right | intros H; apply H2; now right].
      * intros [[-> | H1] H2]; [now left |].
        destruct (decide (f = x)) as [-> | Hne]; [now left | right].
        split; [exact H1 | intros [H | H]; [contradiction | contradiction]].
Qed.

Lemma setFrom_NoDup (l seen : list string) : NoDup (setFrom seen l).
Proof.
  revert seen. induction l as [|x l IH]; intros seen; simpl.
  - constructor.
  - destruct (existsb (String.eqb x) seen); [apply IH |].
    constructor; [| apply IH].
    rewrite setFrom_elem. intros [_ H]. apply H. now left.
Qed.

Lemma setFrom_sublist (l seen : list string) : sublist (setFrom seen l) l.
Proof.
  revert seen. induction l as [|x l IH]; intros seen; simpl.
  - constructor.
  - destruct (existsb (String.eqb x) seen).
    + apply sublist_cons, IH.
    + apply sublist_skip, IH.
Qed.

(** X21.  The files copied are the four files always copied, in their
    order, followed by the additional files that are none of these four,
    in the order given; no file comes twice, however often it is named. *)
Theorem files_to_copy (additional : list string) :
  exists rest : list string,
    setOf (ALWAYS_COPY ++ additional) = ALWAYS_COPY ++ rest
    /\ NoDup (ALWAYS_COPY ++ rest)
    /\ sublist rest additional
    /\ forall f, f ∈ rest <-> f ∈ additional /\ f ∉ ALWAYS_COPY.
Proof.
  exists (setFrom (rev ALWAYS_COPY) additional).
  assert (E : setOf (ALWAYS_COPY ++ additional)
              = ALWAYS_COPY ++ setFrom (rev ALWAYS_COPY) additional) by reflexivity.
  split; [exact E |]. split; [| split].
  - rewrite <- E. apply setFrom_NoDup.
  - apply setFrom_sublist.
  - intros f. rewrite setFrom_elem.
    assert (H : f ∈ rev ALWAYS_COPY <-> f ∈ ALWAYS_COPY).
    { rewrite !list_elem_of_In. symmetry. apply in_rev. }
    tauto.
Qed.

(** ** The filter of [package.json] *)

Lemma remove_from_here (pat : string) (c : ascii) (s : string) :
  remove_from pat 0 (String c s)
  = if Str.starts_with pat (String c s)
    then remove_from pat (String.length pat - 1) s
    else String c (remove_from pat 0 s).
Proof. reflexivity. Qed.

Lemma starts_with_Contains (pat s : string) :
  Str.starts_with pat s = true -> Contains pat s.
Proof.
  unfold Str.starts_with. destruct (Str.strip_prefix pat s) as [r|] eqn:E; [|discriminate].
  intros _. apply strip_prefix_Some in E. exists EmptyString, r. exact E.
Qed.

Lemma Contains_tail (pat : string) (c : ascii) (s : string) :
  Contains pat s -> Contains pat (String c s).
Proof. intros [pre [post ->]]. now exists (String c pre), post. Qed.

Lemma remove_from_clean (pat s : string) :
  ~ Contains pat s -> remove_from pat 0 s = s.
Proof.
  induction s as [|c s IH]; intros Hno; [reflexivity |].
  rewrite remove_from_here.
  destruct (Str.starts_with pat (String c s)) eqn:E.
  - exfalso. apply Hno. now apply starts_with_Contains.
  - f_equal. apply IH. intros H. apply Hno. now apply Contains_tail.
Qed.

(** [dist/] does not overlap itself: an occurrence that starts in a text
    followed by [dist/] lies in that text. *)
Lemma no_match_across (c : ascii) (a b : string) :
  Str.starts_with "dist/" (String c a +:+ "dist/" +:+ b) = true ->
  Contains "dist/" (String c a).
Proof.
  unfold Str.starts_with.
  destruct (Str.strip_prefix "dist/" (String c a +:+ "dist/" +:+ b)) as [r|] eqn:E;
    [|discriminate].
  intros _. apply strip_prefix_Some in E.
  destruct a as [|c2 [|c3 [|c4 [|c5 a]]]]; simpl in E; try congruence.
  injection E as -> -> -> -> -> _. now exists EmptyString, a.
Qed.

(** X22.  What the filter of [package.json] does: a text without [dist/]
    is left as it is, and in a text with [dist/] the part before the first
    occurrence is kept, the occurrence is dropped, and what follows it is
    filtered in the same way. *)
Theorem stripDist_spec (a b : string) :
  ~ Contains "dist/" a ->
  stripDist a = a
  /\ stripDist (a +:+ "dist/" +:+ b) = a +:+ stripDist b.
Proof.
  intros Hno. split; [now apply remove_from_clean |].
  unfold stripDist. induction a as [|c a IH]; [reflexivity |].
  change (String c a +:+ "dist/" +:+ b) with (String c (a +:+ "dist/" +:+ b)).
  rewrite remove_from_here.
  destruct (Str.starts_with "dist/" (String c (a +:+ "dist/" +:+ b))) eqn:E.
  - exfalso. apply Hno. now apply (no_match_across c a b).
  - change (String c a +:+ remove_from "dist/" 0 b)
      with (String c (a +:+ remove_from "dist/" 0 b)).
    f_equal. apply IH. intros H. apply Hno. now apply Contains_tail.
Qed.

(** ** The copy *)

Lemma pathExists_nothing (f : string) (p : Process) :
  NothingAt p f -> pathExists f [] p = (Ret false, p).
Proof.
  intros [e [H Hc]]. unfold pathExists, bind. now rewrite (exists_missing f e p H Hc).
Qed.

Lemma pathExists_fails (f : string) (e : JsError) (p : Process) :
  StatFailsAt p f e -> pathExists f [] p = (Throw e, p).
Proof.
  intros [H Hc]. unfold pathExists, bind. now rewrite (exists_fails f e p H Hc).
Qed.

Lemma dirExists_nothing (f : string) (p : Process) :
  NothingAt p f -> dirExists f [] p = (Ret false, p).
Proof.
  intros [e [H Hc]]. unfold dirExists, bind. now rewrite (exists_missing f e p H Hc).
Qed.

Lemma copyFiles_nothing (dstDir : string) (l : list string) (p : Process) :
  Forall (NothingAt p) l -> copyFiles copy path_normalize dstDir l p = (Ret tt, p).
Proof.
  induction 1 as [|f l Hf _ IH]; [reflexivity |].
  cbn [copyFiles]. unfold bind at 1. unfold bind at 1.
  rewrite (pathExists_nothing f p Hf). unfold ret at 1. exact IH.
Qed.

(** X23.  A file to copy that is not there is passed over without a word
    and without a copy; a file whose [stat] fails for another reason ends
    the build with that error, and the files after it are not looked at. *)
Theorem copy_skips_missing
        (dstDir : string) (before after : list string) (f : string)
        (e : JsError) (p : Process) :
  Forall (NothingAt p) before ->
  copyFiles copy path_normalize dstDir before p = (Ret tt, p)
  /\ (StatFailsAt p f e ->
      copyFiles copy path_normalize dstDir (before ++ f :: after) p = (Throw e, p)).
Proof.
  intros Hb. split; [now apply copyFiles_nothing |]. intros Hf.
  induction Hb as [|g l Hg _ IH]; simpl app; cbn [copyFiles].
  - unfold bind at 1. unfold bind at 1. now rewrite (pathExists_fails f e p Hf).
  - unfold bind at 1. unfold bind at 1.
    rewrite (pathExists_nothing g p Hg). unfold ret at 1. exact IH.
Qed.

(** X24.  The last step of the build, after the directory is made and the
    files are copied, for a project without auxiliary files: the
    [package.json] of the project is read and written into the destination
    with every [dist/] removed, and the status is 0 when it is written; a
    [package.json] that cannot be read ends the build with the error of
    the read, and nothing is written. *)
Theorem build_dist_package_json (args : DistArgs) (p p1 p2 : Process) :
  mkdirp (dest args) p = (Ret tt, p1) ->
  copyFiles copy path_normalize (dest args)
            (setOf (ALWAYS_COPY ++ default [] (files args))) p1 = (Ret tt, p2) ->
  NothingAt p2 (path_resolve (cwd p2)
                  (match root args with
                   | None => "etc"
                   | Some r => path_join [r; "etc"]
                   end)) ->
  (forall contents, fs_readFile (fs p2) "package.json" = Ok contents ->
     run mkdirp copy writeFile path_normalize path_resolve args p
     = (writeFile (path_join [dest args; "package.json"]) (stripDist contents) ;;;
        ret 0%Z) p2)
  /\ (forall e, fs_readFile (fs p2) "package.json" = Err e ->
        run mkdirp copy writeFile path_normalize path_resolve args p = (Throw e, p2)).
Proof.
  intros Hmk Hcp Hetc.
  assert (E : run mkdirp copy writeFile path_normalize path_resolve args p
              = (filterFile writeFile "package.json" (path_join [dest args; "package.json"])
                            (fun contents => ret (stripDist contents)) ;;; ret 0%Z) p2).
  { unfold run. unfold bind at 1. rewrite Hmk.
    unfold bind at 1. rewrite Hcp.
    unfold bind at 1. unfold get at 1.
    unfold bind at 1. rewrite (dirExists_nothing _ p2 Hetc).
    unfold bind at 1. unfold ret at 1. reflexivity. }
  rewrite E. split.
  - intros contents Hr. unfold filterFile, bind, lift_fs, ret. now rewrite Hr.
  - intros e Hr. unfold filterFile, bind, lift_fs. now rewrite Hr.
Qed.

End DistFacts.

(* ================================================================== *)
(** * The further properties at work *)
(* ================================================================== *)

Section BuildsFacts.
Import Posix GlobDefault Engine Scenario Builds.

Lemma nothing_in_tree (f : string) : NoFileAt tree_process f.
Proof. right. exists enoent. split; reflexivity. Defined.

Lemma discovery_order_witness :
  importAll pure_loader
            ["/opt/koolie/dist/cli/koolie-SubCmdBuildDist.js";
             "/opt/koolie/dist/cli/koolie-SubCmdBuildDocs.js"] [] tree_process
  = (Ret (two_commands ++ two_commands), tree_process).
Proof.
  exact (discovery_order unit pure_loader
           ["/opt/koolie/dist/cli/koolie-SubCmdBuildDist.js";
            "/opt/koolie/dist/cli/koolie-SubCmdBuildDocs.js"]
           dist_module [] tree_process
           (fun file _ => nothing_in_tree (file +:+ ".js.cmd"))
           (fun file _ => eq_refl)).
Defined.

Lemma discovery_stops_at_failure_witness :
  importAll partial_loader
            ["/opt/koolie/dist/cli/koolie-SubCmdBuildDist.js";
             "/opt/koolie/dist/cli/koolie-SubCmdBroken.js";
             "/opt/koolie/dist/cli/koolie-SubCmdBuildDocs.js"] [] tree_process
  = (Exit 1,
     logged tree_process
       [AStr ("Failed to import sub-command source: "
              +:+ "/opt/koolie/dist/cli/koolie-SubCmdBroken.js"
              +:+ ": SyntaxError: Unexpected token")]).
Proof.
  exact (discovery_stops_at_failure unit partial_loader
           ["/opt/koolie/dist/cli/koolie-SubCmdBuildDist.js"]
           ["/opt/koolie/dist/cli/koolie-SubCmdBuildDocs.js"]
           "/opt/koolie/dist/cli/koolie-SubCmdBroken.js"
           [] two_commands tree_process tree_process tree_process syntax_error
           eq_refl (nothing_in_tree _) eq_refl).
Defined.

Lemma unreadable_directory_is_fatal_witness :
  program no_module (parsed ["build-dist"]) tree_process
  = (Exit 1,
     logged tree_process
       [AStr ("Error: Failed to file Koolie sub-command files in /opt/koolie/dist/cli: "
              +:+ err_text enoent)]).
Proof.
  exact (unreadable_directory_is_fatal unit no_module (parsed ["build-dist"])
           "/opt/koolie/dist/cli" enoent tree_process eq_refl eq_refl).
Defined.

Lemma registry_lookup_witness :
  NoDup (map name two_commands)
  /\ runnersOf two_commands !! "build-docs" = Some (run (exiting "build-docs" 1))
  /\ forall key, is_Some (runnersOf two_commands !! key) <-> key ∈ map name two_commands.
Proof.
  assert (Hn : NoDup (map name two_commands)).
  { apply NoDup_cons_2; [| apply NoDup_singleton].
    intros H. apply list_elem_of_singleton in H. discriminate. }
  destruct (registry_lookup unit two_commands Hn) as [Hrun Hkeys].
  split; [exact Hn |]. split; [| exact Hkeys].
  apply (Hrun (exiting "build-docs" 1)). right. left.
Defined.


Lemma entry_points_are_sources_witness :
  SourceRoot (mkArgs [] None false) spec_process "src"
  /\ exists entryPoints,
      getDefaultEntryPoints (mkArgs [] None false) spec_process
      = (Ret entryPoints, spec_process)
      /\ forall r, r ∈ entryPoints ->
           (exists a b, r = a +:+ "/" +:+ b +:+ ".ts")
           /\ (forall u, r <> u +:+ ".spec.ts").
Proof.
  assert (Hroot : SourceRoot (mkArgs [] None false) spec_process "src").
  { split; [reflexivity |]. exists folder. split; reflexivity. }
  split; [exact Hroot |].
  destruct (entry_points_are_sources (RE:=engine) (mkArgs [] None false) "src"
              (directory "/proj/src" :: spec_files) spec_process
              (proj_is_plain spec_process eq_refl) Hroot eq_refl)
    as [entryPoints [Hret Hall]].
  exists entryPoints. split; [exact Hret |].
  intros r Hr. destruct (Hall r Hr) as [Hts [Hspec _]]. split; [exact Hts | exact Hspec].
Defined.

Lemma html_config_in_project : IsFileAt docs_process (path_join ["docs"; "html-config.cjs"]).
Proof. exists regular. split; reflexivity. Defined.

Lemma run_explicit_entry_points_witness :
  SubCommandBuildDocs.run quiet_log err_text counting_typedoc
    (SubCommandBuildDocs.mkDocsArgs (mkArgs [] None true)
       (Some ["src/index.ts"; "src/cli/index.ts"]) true false)
    docs_process
  = (Ret 6%Z, docs_process).
Proof.
  exact (run_explicit_entry_points (NP:=posix) (GL:=glob_default) (RE:=engine) quiet_log err_text counting_typedoc
           (SubCommandBuildDocs.mkDocsArgs (mkArgs [] None true)
              (Some ["src/index.ts"; "src/cli/index.ts"]) true false)
           ["src/index.ts"; "src/cli/index.ts"] docs_process docs_process
           eq_refl (fun H => nil_cons (eq_sym H)) eq_refl eq_refl
           html_config_in_project eq_refl).
Defined.

Lemma run_resolution_failure_witness :
  SubCommandBuildDocs.run quiet_log bare_message counting_typedoc
    (SubCommandBuildDocs.mkDocsArgs (mkArgs [] None true) None true true)
    tree_process
  = (Ret 1%Z,
     logged tree_process [AStr "Cannot workout the source root, specify with --src"]).
Proof.
  exact (run_resolution_failure (NP:=posix) (GL:=glob_default) (RE:=engine)
           quiet_log bare_message counting_typedoc
           (SubCommandBuildDocs.mkDocsArgs (mkArgs [] None true) None true true)
           (mkError None "Error: Cannot workout the source root, specify with --src")
           tree_process tree_process eq_refl eq_refl).
Defined.

Lemma run_html_first_witness :
  SubCommandBuildDocs.run quiet_log err_text counting_typedoc
    (SubCommandBuildDocs.mkDocsArgs (mkArgs [] None true) (Some ["src/index.ts"]) true true)
    docs_process
  = (Ret 4%Z, docs_process)
  /\ SubCommandBuildDocs.run quiet_log err_text passing_typedoc
       (SubCommandBuildDocs.mkDocsArgs (mkArgs [] None true) (Some ["src/index.ts"]) true true)
       docs_process
     = (Ret 0%Z, docs_process).
Proof.
  split.
  - apply (run_html_first (NP:=posix) (GL:=glob_default) (RE:=engine) quiet_log err_text counting_typedoc
             (SubCommandBuildDocs.mkDocsArgs (mkArgs [] None true)
                (Some ["src/index.ts"]) true true)
             ["src/index.ts"] 4%Z docs_process docs_process
             eq_refl (fun H => nil_cons (eq_sym H)) eq_refl eq_refl).
    discriminate.
  - exact (proj2 (run_html_first (NP:=posix) (GL:=glob_default) (RE:=engine) quiet_log err_text passing_typedoc
                    (SubCommandBuildDocs.mkDocsArgs (mkArgs [] None true)
                       (Some ["src/index.ts"]) true true)
                    ["src/index.ts"] 0%Z docs_process docs_process
                    eq_refl (fun H => nil_cons (eq_sym H)) eq_refl eq_refl) eq_refl).
Defined.

Lemma generation_skipped_without_config_witness :
  SubCommandBuildDocs.generateMarkdownDocs quiet_log counting_typedoc
    ["--entryPoints"; "src/index.ts"] docs_process
  = (Ret 0%Z, docs_process).
Proof.
  apply (proj2 (generation_skipped_without_config (NP:=posix) quiet_log counting_typedoc
                  ["--entryPoints"; "src/index.ts"] docs_process docs_process)).
  - right. exists enoent. split; reflexivity.
  - reflexivity.
Defined.

Lemma stripDist_spec_witness :
  SubCommandBuildDist.stripDist "./dist/index.js" = "./index.js".
Proof.
  assert (Hno : ~ Contains "dist/" "./").
  { intros [pre [post E]].
    destruct pre as [|c1 [|c2 pre]]; simpl in E; try discriminate E.
    injection E as _ _ E. destruct pre; discriminate E. }
  exact (proj2 (stripDist_spec "./" "index.js" Hno)).
Defined.

Lemma copy_skips_missing_witness :
  SubCommandBuildDist.copyFiles no_effect2 normalize "dist"
    SubCommandBuildDist.ALWAYS_COPY denied_process
  = (Throw eacces, denied_process).
Proof.
  assert (Hb : Forall (NothingAt denied_process) ["README.md"; "CHANGELOG.md"]).
  { repeat constructor; exists enoent; split; reflexivity. }
  apply (proj2 (copy_skips_missing (NP:=posix) no_effect2 normalize "dist"
                  ["README.md"; "CHANGELOG.md"] ["yarn.lock"] "LICENSE" eacces
                  denied_process Hb)).
  split; [reflexivity | discriminate].
Defined.

Lemma build_dist_package_json_witness :
  SubCommandBuildDist.run no_effect no_effect2 traced_write normalize resolve_posix
    (SubCommandBuildDist.mkDistArgs "dist" None None) docs_process
  = (Ret 0%Z,
     logged docs_process
       [AStr "dist/package.json"; AStr "{ main: index.js, types: index.d.ts }"]).
Proof.
  assert (Hetc : NothingAt docs_process (resolve_posix (cwd docs_process) "etc")).
  { exists enoent. split; reflexivity. }
  exact (proj1 (build_dist_package_json (NP:=posix) no_effect no_effect2 traced_write
                  normalize resolve_posix (SubCommandBuildDist.mkDistArgs "dist" None None)
                  docs_process docs_process docs_process eq_refl eq_refl Hetc)
           "{ main: dist/index.js, types: dist/index.d.ts }" eq_refl).
Defined.

End BuildsFacts.

(* ================================================================== *)
(** * [importSubCommand]: what ends the discovery *)
(* ================================================================== *)

Section ImportFailures.
Context {NP : NodePath}.
Variable Builder : Type.
Variable import_default : string -> M (DefaultExport Builder).

(** X25.  Two failures around a Windows wrapper end the process with
    status 1 and one line on [console.error]: a [stat] of
    [<filename>.js.cmd] that fails for another reason than [ENOENT], and a
    wrapper that is there but cannot be read, which is reported as a
    failure of the import via the wrapper.  Nothing is imported in either
    case. *)
Theorem wrapper_failures
        (filename : string) (subCommands : list (SubCommand Builder))
        (err : JsError) (p : Process) :
  (StatFailsAt p (filename +:+ ".js.cmd") err ->
   importSubCommand import_default filename subCommands p
   = (Exit 1, logged p [AStr ("Failed to import sub-command source: " +:+ filename +:+ ": "
                              +:+ err_text err)]))
  /\ (IsFileAt p (filename +:+ ".js.cmd") ->
      fs_readFile (fs p) (filename +:+ ".js.cmd") = Err err ->
      importSubCommand import_default filename subCommands p
      = (Exit 1,
         logged p [AStr ("Failed to import sub-command source via Windows wrapper: "
                         +:+ (filename +:+ ".js.cmd") +:+ ": " +:+ err_text err)])).
Proof.
  split.
  - intros Hs. unfold importSubCommand. unfold bind at 1. unfold try_catch at 1.
    rewrite (fileExists_StatFailsAt _ _ _ Hs). reflexivity.
  - intros Hf Hr. unfold importSubCommand. unfold bind at 1. unfold try_catch at 1.
    rewrite (fileExists_IsFileAt _ _ Hf).
    unfold importWindowsSubCommand. unfold_m. now rewrite Hr.
Qed.

End ImportFailures.

Section ImportFailuresAtWork.
Import Posix Scenario Builds.

Lemma wrapper_failures_witness :
  importSubCommand pure_loader "/proj/node_modules/.bin/koolie-SubCmdFoo" [] notdir_process
  = (Exit 1,
     logged notdir_process
       [AStr ("Failed to import sub-command source: "
              +:+ "/proj/node_modules/.bin/koolie-SubCmdFoo" +:+ ": "
              +:+ err_text enotdir)]).
Proof.
  apply (proj1 (wrapper_failures (NP:=posix) unit pure_loader
                  "/proj/node_modules/.bin/koolie-SubCmdFoo" [] enotdir notdir_process)).
  split; [reflexivity | discriminate].
Defined.

End ImportFailuresAtWork.
